(** * Kamodo GUI (kamodo/cli/gui.py): model registry, subplot composition
      and callback wiring

    A shallow embedding of [get_gui], [get_equation_divs],
    [make_kamodo_subplots], [generate_subplot_callback] and
    [generate_range_slider_callback], together with the properties of the
    reactive binding engine that hold (or fail) on that code.

    Conventions.
    - Python exceptions are values of [exn]; fallible code returns [result].
    - [print] is kept: code that prints lives in the monad [M], a writer over
      [out] on top of [result].
    - Python dicts whose insertion order is observable ([model_params],
      [graphs], keyword arguments) are association lists with in-place
      overwrite ([dict_set]); the Dash component store is a [gmap].
    - Numbers are rationals ([Q]) wherever the code only stores, passes on
      or compares them.  The values [np.linspace] computes are binary64
      floats: they are modelled by [np_linspace], on primitive floats. *)

From stdpp Require Import gmap strings list.
From Stdlib Require Import QArith.

Local Open Scope string_scope.
Local Open Scope nat_scope.
Local Open Scope list_scope.

(** ** Exceptions and results *)

Inductive exn :=
| NameError (name : string)
| KeyError (key : string)
| IndexError
| TypeError
| ValueError
| PreventUpdate
| SystemExit
| Error (msg : string).

(** [isinstance(e, Exception)]: [SystemExit] derives from [BaseException]
    only, so [except Exception] lets it through. *)
Definition is_Exception (e : exn) : bool :=
  match e with
  | SystemExit => false
  | _ => true
  end.

Inductive result (A : Type) :=
| Ok (a : A)
| Raise (e : exn).
Arguments Ok {A} a.
Arguments Raise {A} e.

#[global] Instance result_ret : MRet result := λ A a, Ok a.
#[global] Instance result_bind : MBind result := λ A B f r,
  match r with
  | Ok a => f a
  | Raise e => Raise e
  end.

(** ** Python dicts with string keys (insertion ordered) *)

Section dict.
Context {V : Type}.

Definition dict := list (string * V).

(** [d[k] = v]: overwrite in place, or append a new key. *)
Fixpoint dict_set (k : string) (v : V) (d : dict) : dict :=
  match d with
  | [] => [(k, v)]
  | (k', v') :: d' =>
      if String.eqb k k' then (k, v) :: d' else (k', v') :: dict_set k v d'
  end.

Fixpoint dict_get (k : string) (d : dict) : option V :=
  match d with
  | [] => None
  | (k', v') :: d' => if String.eqb k k' then Some v' else dict_get k d'
  end.

(** [d.get(k, default)] *)
Definition dict_get_default (k : string) (default : V) (d : dict) : V :=
  match dict_get k d with
  | Some v => v
  | None => default
  end.

(** [k in d] *)
Definition dict_in (k : string) (d : dict) : bool :=
  match dict_get k d with
  | Some _ => true
  | None => false
  end.

Definition dict_keys (d : dict) : list string := d.*1.
End dict.
Arguments dict V : clear implicits.

(** ** Data model *)

Abbreviation samples := (list Q).

(** Keyword arguments of [model.figure]: parameter name to sample sequence. *)
Definition kwargs := dict samples.

(** [model_params]: variable name to its keyword arguments. *)
Definition model_params_t := dict kwargs.

(** What the program prints. *)
Inductive out :=
| Print_str (s : string)
| Print_exn (e : exn)
| Print_params (p : model_params_t).

(** The monad of code that prints and may raise. *)
Definition M (A : Type) : Type := list out * result A.

#[global] Instance M_ret : MRet M := λ A a, ([], Ok a).
#[global] Instance M_bind : MBind M := λ A B f m,
  match m with
  | (o, Ok a) => let '(o', r) := f a in (o ++ o', r)
  | (o, Raise e) => (o, Raise e)
  end.

Definition print (s : string) : M unit := ([Print_str s], Ok tt).
Definition print_exn (e : exn) : M unit := ([Print_exn e], Ok tt).
Definition print_params (p : model_params_t) : M unit := ([Print_params p], Ok tt).
Definition raise {A : Type} (e : exn) : M A := ([], Raise e).
Definition lift {A : Type} (r : result A) : M A := ([], r).

(** A plotly trace: opaque to gui.py, which only moves traces around. *)
Record trace := { trace_type : string; trace_data : kwargs }.

(** The dict returned by [model.figure(..., return_type = True)]. *)
Record fig_dict := { data : list trace; chart_type : string }.

(** A plotly [Figure]: the subplot grid if it was made by [make_subplots],
    and the traces with the grid cell each was added to. *)
Record Figure := {
  grid : option (nat * nat);
  fig_data : list (trace * option (nat * nat))
}.

Inductive indexing := ij | xy.

(** The key of a member in [model.items()].  gui.py observes [str(s)],
    [str(type(s))] and whether [type(s)] is [UndefinedFunction]. *)
Record symbol := {
  str : string;
  type_str : string;
  type_is_UndefinedFunction : bool
}.

(** A registered callable.  gui.py only ever passes it to
    [kamodo.get_defaults], whose outcome is recorded here. *)
Record func := { get_defaults : result kwargs }.

(** A model object as gui.py uses it: a dict-like object with the methods
    [items], [__getitem__], [figure], [to_latex] and the attribute
    [detail]. *)
Record Model := {
  items : list (symbol * func);
  getitem : string → result func;
  figure : string → indexing → kwargs → result fig_dict;
  to_latex : string → string;
  detail : string
}.

(** [len(model)] *)
Definition len (model : Model) : nat := length (items model).

(** An explicit entry of a model's [plot] configuration; gui.py passes it
    to [kamodo.cli.main.eval_config], whose outcome is recorded here. *)
Record var_args := { eval_config : result kwargs }.

(** One entry of [cfg.models]: [hydra.utils.instantiate(model_conf)] and
    [model_conf.plot]. *)
Record model_conf := {
  instantiate : result Model;
  plot : option (list (string * option var_args))
}.

(** ** plotly: make_subplots, add_trace, go.Figure *)

(** [make_subplots(rows, cols)] rejects a grid without rows or columns. *)
Definition make_subplots (rows cols : nat) : result Figure :=
  if (rows =? 0) || (cols =? 0) then Raise ValueError
  else Ok {| grid := Some (rows, cols); fig_data := [] |}.

(** [fig.add_trace(t, row, col)]: the cell must exist in the grid. *)
Definition add_trace (fig : Figure) (t : trace) (row col : nat) : result Figure :=
  match grid fig with
  | None => Raise (Error "no subplot grid")
  | Some (rows, cols) =>
      if (1 <=? row) && (row <=? rows) && (1 <=? col) && (col <=? cols)
      then Ok {| grid := grid fig; fig_data := fig_data fig ++ [(t, Some (row, col))] |}
      else Raise (Error "cell out of range")
  end.

(** [go.Figure(fig)] *)
Definition go_Figure (fig : fig_dict) : Figure :=
  {| grid := None; fig_data := (λ t, (t, None)) <$> data fig |}.

(** [l[0]] *)
Definition item0 {A : Type} (l : list A) : result A :=
  match l with
  | [] => Raise IndexError
  | a :: _ => Ok a
  end.

(** ** make_kamodo_subplots *)

(** The body of the [try] in [make_kamodo_subplots]. *)
Definition add_row (model : Model) (model_params : model_params_t)
    (fig_subplots : Figure) (plot_count : nat) (varname : string) : result Figure :=
  fig ← figure model varname ij (dict_get_default varname [] model_params);
  t ← item0 (data fig);
  add_trace fig_subplots t (plot_count + 1) 1.

(** The [for plot_count, varname in enumerate(var_names)] loop; the bare
    [except:] catches everything. *)
Fixpoint subplots_loop (model : Model) (model_params : model_params_t)
    (fig_subplots : Figure) (plot_count : nat) (var_names : list string) : M Figure :=
  match var_names with
  | [] => mret fig_subplots
  | varname :: var_names' =>
      match add_row model model_params fig_subplots plot_count varname with
      | Ok fig_subplots' =>
          subplots_loop model model_params fig_subplots' (S plot_count) var_names'
      | Raise _ =>
          print ("could not plot " +:+ varname +:+ " with model_params:");;
          print_params model_params;;
          raise PreventUpdate
      end
  end.

Definition make_kamodo_subplots (model : Model) (var_names : list string)
    (model_params : model_params_t) : M Figure :=
  fig_subplots ← lift (make_subplots (length var_names) 1);
  subplots_loop model model_params fig_subplots 0 var_names.

(** ** get_equation_divs *)

Record DashKatex := { katex_id : string; expression : string }.

Record Checklist := {
  checklist_id : string;
  options : list string;
  value : list string
}.

Record equation_divs_t := { checklist : Checklist; equations : list DashKatex }.

(** The [for var_symbol, func in model.items()] loop of
    [get_equation_divs], threading [equations], [options], [selected]. *)
Fixpoint equation_loop (model : Model) (model_name : string)
    (model_params : model_params_t) (its : list (symbol * func))
    (equations : list DashKatex) (options selected : list string)
    : list DashKatex * list string * list string :=
  match its with
  | [] => (equations, options, selected)
  | (var_symbol, _) :: its' =>
      if negb (type_is_UndefinedFunction var_symbol) then
        let var_label := type_str var_symbol in
        let selected' :=
          if dict_in (type_str var_symbol) model_params
          then selected ++ [var_label] else selected in
        equation_loop model model_name model_params its'
          (equations ++
             [{| katex_id := model_name +:+ "-" +:+ str var_symbol +:+ "-expression";
                 expression := to_latex model (str var_symbol) |}])
          (options ++ [var_label]) selected'
      else equation_loop model model_name model_params its' equations options selected
  end.

Definition get_equation_divs (model : Model) (model_name : string)
    (model_params : model_params_t) : equation_divs_t :=
  let '(equations, options, selected) :=
    equation_loop model model_name model_params (items model) [] [] [] in
  {| checklist := {| checklist_id := "checklist-" +:+ model_name;
                     options := options;
                     value := selected |};
     equations := equations |}.

(** ** Dash: component properties, callbacks, the app *)

(** The value of a component property. *)
Inductive prop_value :=
| Names (l : list string)
| Range (l : list Q)
| Count (n : Z)
| Fig (f : Figure).

(** [Input(id, property)] / [Output(id, property)] *)
Abbreviation dependency := (string * string)%type.

Record callback := {
  output : dependency;
  inputs : list dependency;
  fn : list prop_value → M Figure
}.

Record Graph := { graph_id_of : string; graph_figure : Figure }.

Record Tab := {
  label : string;
  tab_equation_divs : equation_divs_t;
  tab_graph : Graph
}.

Record App := {
  tabs : list Tab;
  callback_map : list callback
}.

(** [@app.callback(output, inputs)] applied to [f]. *)
Definition app_callback (app : App) (o : dependency) (i : list dependency)
    (f : list prop_value → M Figure) : App :=
  {| tabs := tabs app;
     callback_map := callback_map app ++ [{| output := o; inputs := i; fn := f |}] |}.

(** ** generate_subplot_callback *)

Definition update_subplot (model : Model) (model_params : model_params_t)
    (var_names : list string) : M Figure :=
  if 0 <? length var_names
  then make_kamodo_subplots model var_names model_params
  else raise PreventUpdate.

Definition generate_subplot_callback (app : App) (graph_id : string)
    (model : Model) (model_name : string) (model_params : model_params_t) : App :=
  app_callback app (graph_id, "figure") [("checklist-" +:+ model_name, "value")]
    (λ args,
       match args with
       | [Names var_names] => update_subplot model model_params var_names
       | _ => raise TypeError
       end).

(** The callback [generate_subplot_callback] leaves in the app. *)
Definition subplot_callback (graph_id : string) (model : Model)
    (model_name : string) (model_params : model_params_t) : callback :=
  {| output := (graph_id, "figure");
     inputs := [("checklist-" +:+ model_name, "value")];
     fn := λ args,
       match args with
       | [Names var_names] => update_subplot model model_params var_names
       | _ => raise TypeError
       end |}.

(** ** get_gui *)

(** The locals of [get_gui] that live across iterations of its first loop. *)
Record loop_state := {
  st_model : option Model;
  st_tabs_children : list Tab;
  st_graphs : dict (Model * model_params_t * string)
}.

(** [plot is None]: defaults of every member whose key has type
    [UndefinedFunction]; a failing [get_defaults] is not caught. *)
Fixpoint defaults_loop (its : list (symbol * func)) (model_params : model_params_t)
    : result model_params_t :=
  match its with
  | [] => Ok model_params
  | (var_symbol, func) :: its' =>
      if type_is_UndefinedFunction var_symbol then
        d ← get_defaults func;
        defaults_loop its' (dict_set (str var_symbol) d model_params)
      else defaults_loop its' model_params
  end.

(** [get_defaults(model[var_name])] *)
Definition declared_defaults (model : Model) (var_name : string) : result kwargs :=
  f ← getitem model var_name; get_defaults f.

(** The [for var_name, var_args in model_conf.plot.items()] loop. *)
Fixpoint plot_loop (model : Model) (entries : list (string * option var_args))
    (model_params : model_params_t) : M model_params_t :=
  match entries with
  | [] => mret model_params
  | (var_name, None) :: entries' =>
      match declared_defaults model var_name with
      | Ok d => plot_loop model entries' (dict_set var_name d model_params)
      | Raise m =>
          if is_Exception m then
            print (detail model);; print_exn m;; raise SystemExit
          else raise m
      end
  | (var_name, Some a) :: entries' =>
      d ← lift (eval_config a);
      plot_loop model entries' (dict_set var_name d model_params)
  end.

Definition resolve_params (model : Model) (model_conf : model_conf) : M model_params_t :=
  match plot model_conf with
  | None => lift (defaults_loop (items model) [])
  | Some entries => plot_loop model entries []
  end.

(** Lines 107-146: the loop body once the name [model] is bound. *)
Definition build_tab (st : loop_state) (model_name : string)
    (model_conf : model_conf) (model : Model) : M loop_state :=
  if len model =? 0 then
    mret {| st_model := Some model;
            st_tabs_children := st_tabs_children st;
            st_graphs := st_graphs st |}
  else
    model_params ← resolve_params model model_conf;
    let equation_divs := get_equation_divs model model_name model_params in
    let graph_id := "graph-" +:+ model_name in
    fig_subplots ← make_kamodo_subplots model (dict_keys model_params) model_params;
    let tab := {| label := model_name;
                  tab_equation_divs := equation_divs;
                  tab_graph := {| graph_id_of := graph_id;
                                  graph_figure := fig_subplots |} |} in
    mret {| st_model := Some model;
            st_tabs_children := st_tabs_children st ++ [tab];
            st_graphs := dict_set graph_id (model, model_params, model_name)
                           (st_graphs st) |}.

(** One iteration of [for model_name, model_conf in cfg.models.items()].
    The [except Exception] clause prints and falls through: [model] keeps
    whatever an earlier iteration bound it to. *)
Definition get_gui_body (st : loop_state) (entry : string * model_conf) : M loop_state :=
  let '(model_name, model_conf) := entry in
  print model_name;;
  model ← match instantiate model_conf with
           | Ok model => mret (Some model)
           | Raise m =>
               if is_Exception m then
                 print ("could not instantiate " +:+ model_name);;
                 print_exn m;;
                 mret (st_model st)
               else raise m
           end;
  match model with
  | None => raise (NameError "model")
  | Some model => build_tab st model_name model_conf model
  end.

Fixpoint get_gui_loop (st : loop_state) (models : list (string * model_conf))
    : M loop_state :=
  match models with
  | [] => mret st
  | entry :: models' =>
      st' ← get_gui_body st entry;
      get_gui_loop st' models'
  end.

Definition init_state : loop_state :=
  {| st_model := None; st_tabs_children := []; st_graphs := [] |}.

(** The second loop: one selection callback per entry of [graphs]. *)
Definition register_callbacks (app : App)
    (graphs : dict (Model * model_params_t * string)) : App :=
  foldl (λ app '(graph_id, (model, model_params, model_name)),
           generate_subplot_callback app graph_id model model_name model_params)
        app graphs.

Definition get_gui (models : list (string * model_conf)) : M App :=
  st ← get_gui_loop init_state models;
  mret (register_callbacks {| tabs := st_tabs_children st; callback_map := [] |}
          (st_graphs st)).

(** ** Dash's reaction to a property change

    The store holds the current value of every component property.  When
    the user changes input [i] to [v], every callback that lists [i] among
    its inputs is called with the current values of all its inputs; the
    returned figure is written to the callback's output, and an exception
    ([PreventUpdate] or any other) leaves the output as it was.  No output
    of gui.py is another callback's input, so there is no chaining. *)

Definition run_callback (cb : callback) (store : gmap dependency prop_value)
    : list out * gmap dependency prop_value :=
  match mapM (λ i, store !! i) (inputs cb) with
  | None => ([], store)
  | Some args =>
      match fn cb args with
      | (o, Ok fig) => (o, <[output cb := Fig fig]> store)
      | (o, Raise _) => (o, store)
      end
  end.

Definition fire (i : dependency) (acc : list out * gmap dependency prop_value)
    (cb : callback) : list out * gmap dependency prop_value :=
  if bool_decide (i ∈ inputs cb) then
    let '(o', store') := run_callback cb acc.2 in (acc.1 ++ o', store')
  else acc.

Definition on_event (app : App) (i : dependency) (v : prop_value)
    (store : gmap dependency prop_value) : list out * gmap dependency prop_value :=
  foldl (fire i) ([], <[i := v]> store) (callback_map app).

(** The store right after the layout is rendered. *)
Definition initial_store (app : App) : gmap dependency prop_value :=
  foldl (λ store tab,
           <[(graph_id_of (tab_graph tab), "figure") := Fig (graph_figure (tab_graph tab))]>
             (<[(checklist_id (checklist (tab_equation_divs tab)), "value")
                  := Names (value (checklist (tab_equation_divs tab)))]> store))
        ∅ (tabs app).

(** ** numpy.linspace on rationals *)

Local Open Scope Q_scope.

Definition arange (num : nat) : samples :=
  (λ i, inject_Z (Z.of_nat i)) <$> seq 0 num.

(** [np.linspace(start, stop, num)] with [endpoint = True], in exact
    arithmetic.  It stands for the call in the embedding of the callbacks,
    where the samples are only handed on to [model.figure]; the values the
    real call computes, with binary64 rounding, are those of [np_linspace]
    below. *)
Definition linspace (start stop : Q) (num : nat) : samples :=
  let div := (num - 1)%nat in
  let delta := stop - start in
  let y := arange num in
  let y :=
    if (0 <? div)%nat then
      let step := delta / inject_Z (Z.of_nat div) in
      if Qeq_bool step 0
      then (λ yi, yi / inject_Z (Z.of_nat div) * delta) <$> y
      else (λ yi, yi * step) <$> y
    else (λ yi, yi * delta) <$> y in
  let y := (λ yi, yi + start) <$> y in
  if (1 <? num)%nat then <[(num - 1)%nat := stop]> y else y.

Local Close Scope Q_scope.

(** ** generate_range_slider_callback *)

(** [np.linspace] called with the unpacked pair [a] and [num = b]. *)
Definition linspace_call (a b : prop_value) : result samples :=
  match a, b with
  | Range [start; stop], Count num =>
      if (num <? 0)%Z then Raise ValueError
      else Ok (linspace start stop (Z.to_nat num))
  | _, _ => Raise TypeError
  end.

(** [inputs[i]] *)
Definition item {A : Type} (l : list A) (i : nat) : result A :=
  match l !! i with
  | Some a => Ok a
  | None => Raise IndexError
  end.

(** The [for i, k in enumerate(input_dict)] loop of [update_figure]. *)
Fixpoint plot_args_loop (inputs : list prop_value) (i : nat) (keys : list string)
    (plot_args : kwargs) : result kwargs :=
  match keys with
  | [] => Ok plot_args
  | k :: keys' =>
      a ← item inputs (2 * i);
      b ← item inputs (2 * i + 1);
      s ← linspace_call a b;
      plot_args_loop inputs (S i) keys' (dict_set k s plot_args)
  end.

Definition update_figure (model : Model) (varname : string)
    (input_dict : dict (dependency * dependency)) (inputs : list prop_value)
    : result Figure :=
  plot_args ← plot_args_loop inputs 0 (dict_keys input_dict) [];
  fig ← figure model varname ij plot_args;
  mret (go_Figure fig).

Definition generate_range_slider_callback (app : App) (graph_id varname : string)
    (model : Model) (plot_kwargs : kwargs) : M App :=
  print ("generating calback for " +:+ graph_id +:+ ": " +:+ varname);;
  let output := (graph_id, "figure") in
  let input_dict :=
    foldl (λ input_dict '(k, _),
             dict_set k (("rangeslider-" +:+ graph_id +:+ "-" +:+ k, "value"),
                         ("input-" +:+ graph_id +:+ "-" +:+ k, "value")) input_dict)
          [] plot_kwargs in
  let inputs := flat_map (λ '(_, (a, b)), [a; b]) input_dict in
  mret (app_callback app output inputs
          (λ inputs, lift (update_figure model varname input_dict inputs))).

(** ** Auxiliary definitions used in the statements *)

(** The first trace of a variable's figure, evaluated on its own samples
    with [indexing = 'ij']: what [add_row] hands to [add_trace]. *)
Definition first_trace (model : Model) (model_params : model_params_t)
    (varname : string) : result trace :=
  fig ← figure model varname ij (dict_get_default varname [] model_params);
  item0 (data fig).

(** The cells the loop fills when every variable evaluates. *)
Definition placed (plot_count : nat) (ts : list trace)
    : list (trace * option (nat * nat)) :=
  imap (λ i t, (t, Some (plot_count + i + 1, 1))) ts.


(** The callback the second loop of [get_gui] registers for an entry of
    [graphs]. *)
Definition entry_callback (entry : string * (Model * model_params_t * string))
    : callback :=
  let '(graph_id, (model, model_params, model_name)) := entry in
  subplot_callback graph_id model model_name model_params.

(** [graphs] is keyed by ["graph-" + model_name], one entry per key. *)
Definition graphs_wf (graphs : dict (Model * model_params_t * string)) : Prop :=
  NoDup (dict_keys graphs)
  ∧ ∀ graph_id model model_params model_name,
      (graph_id, (model, model_params, model_name)) ∈ graphs →
      graph_id = "graph-" +:+ model_name.

(** What the name [model] is bound to once the first loop has gone over
    [models], having started bound to [model]: the result of the last
    instantiation that succeeded. *)
Fixpoint last_instantiated (models : list (string * model_conf))
    (model : option Model) : option Model :=
  match models with
  | [] => model
  | (_, model_conf) :: models' =>
      last_instantiated models'
        match instantiate model_conf with
        | Ok m => Some m
        | Raise _ => model
        end
  end.

(** The members [get_equation_divs] lists in the checklist: those whose
    key is not of type [UndefinedFunction]. *)
Definition dependent_variables (model : Model) : list symbol :=
  filter (λ s, type_is_UndefinedFunction s = false) (items model).*1.

(** The traces of the figure a store holds for a graph. *)
Definition published_traces (store : gmap dependency prop_value)
    (graph_id : string) : option (list trace) :=
  match store !! (graph_id, "figure") with
  | Some (Fig fig) => Some (fig_data fig).*1
  | _ => None
  end.

(** ** Concrete models used as test inputs *)

Local Open Scope Q_scope.

(** A member pair as Kamodo registers it: the applied symbol [name(x)],
    whose type is the function class [name], and the class itself, whose
    type is [UndefinedFunction]. *)
Definition applied (name : string) : symbol :=
  {| str := name +:+ "(x)"; type_str := name; type_is_UndefinedFunction := false |}.

Definition function_class (name : string) : symbol :=
  {| str := name;
     type_str := "<class 'sympy.core.function.UndefinedFunction'>";
     type_is_UndefinedFunction := true |}.

Definition with_defaults : func := {| get_defaults := Ok [("x", [0; 1; 2])] |}.
Definition without_defaults : func := {| get_defaults := Raise (Error "no defaults") |}.

(** A line trace of [y = callable(x)] over the samples passed for [x]. *)
Definition line (callable : Q → Q) (kw : kwargs) : fig_dict :=
  let xs := dict_get_default "x" [] kw in
  {| data := [{| trace_type := "scatter";
                 trace_data := [("x", xs); ("y", callable <$> xs)] |}];
     chart_type := "line" |}.

(** [f(x) = x * x] and [g(x) = x + 1], both with declared defaults. *)
Definition model_fg : Model :=
  {| items := [(applied "f", with_defaults); (function_class "f", with_defaults);
               (applied "g", with_defaults); (function_class "g", with_defaults)];
     getitem := λ k, if String.eqb k "f" || String.eqb k "g"
                     then Ok with_defaults else Raise (KeyError k);
     figure := λ varname _ kw,
       if String.eqb varname "f" then Ok (line (λ x, x * x) kw)
       else if String.eqb varname "g" then Ok (line (λ x, x + 1) kw)
       else Raise (KeyError varname);
     to_latex := λ k, k;
     detail := "f, g" |}.

(** The same model, except that evaluating [f] raises for all inputs. *)
Definition model_f_raises : Model :=
  {| items := items model_fg;
     getitem := getitem model_fg;
     figure := λ varname i kw,
       if String.eqb varname "f" then Raise (Error "f cannot be evaluated")
       else figure model_fg varname i kw;
     to_latex := to_latex model_fg;
     detail := detail model_fg |}.

Definition params_fg : model_params_t :=
  [("f", [("x", [0; 1; 2])]); ("g", [("x", [0; 1; 2])])].

Local Close Scope Q_scope.

(** Configurations used as test inputs. *)
Definition conf_fg : model_conf := {| instantiate := Ok model_fg; plot := None |}.

Definition conf_failing : model_conf :=
  {| instantiate := Raise (Error "cannot import model"); plot := None |}.

(** A second model with a single variable [f(x) = 2 * x]. *)
Definition model_double : Model :=
  {| items := [(applied "f", with_defaults); (function_class "f", with_defaults)];
     getitem := λ k, if String.eqb k "f" then Ok with_defaults else Raise (KeyError k);
     figure := λ varname _ kw,
       if String.eqb varname "f" then Ok (line (λ x, 2 * x)%Q kw)
       else Raise (KeyError varname);
     to_latex := λ k, k;
     detail := "f" |}.

Definition conf_double : model_conf :=
  {| instantiate := Ok model_double; plot := None |}.

(** [model_double] with an [f] that declares no defaults, configured with
    [plot: {f: null}]. *)
Definition model_no_defaults : Model :=
  {| items := [(applied "f", without_defaults); (function_class "f", without_defaults)];
     getitem := λ k, if String.eqb k "f" then Ok without_defaults else Raise (KeyError k);
     figure := figure model_double;
     to_latex := to_latex model_double;
     detail := "f" |}.

Definition conf_null_entry : model_conf :=
  {| instantiate := Ok model_no_defaults; plot := Some [("f", None)] |}.

(** A model whose only member is a parameter placeholder. *)
Definition model_placeholder : Model :=
  {| items := [(function_class "x", with_defaults)];
     getitem := λ k, if String.eqb k "x" then Ok with_defaults else Raise (KeyError k);
     figure := λ varname _ kw,
       if String.eqb varname "x" then Ok (line (λ x, x) kw)
       else Raise (KeyError varname);
     to_latex := λ k, k;
     detail := "x" |}.

Definition conf_placeholder : model_conf :=
  {| instantiate := Ok model_placeholder; plot := None |}.

(** A model without members. *)
Definition model_empty : Model :=
  {| items := [];
     getitem := λ k, Raise (KeyError k);
     figure := λ varname _ _, Raise (KeyError varname);
     to_latex := λ k, k;
     detail := "" |}.

Definition conf_empty : model_conf :=
  {| instantiate := Ok model_empty; plot := None |}.

(** ** Further auxiliary definitions *)

(** The members whose defaults the no-plot branch of [get_gui] collects:
    those whose key is of type [UndefinedFunction]. *)
Definition parameter_members (model : Model) : list (symbol * func) :=
  filter (λ sf, type_is_UndefinedFunction sf.1 = true) (items model).

(** What one entry of [model_conf.plot] resolves to. *)
Definition entry_resolution (model : Model) (entry : string * option var_args)
    : result kwargs :=
  match entry.2 with
  | None => declared_defaults model entry.1
  | Some a => eval_config a
  end.

(** The model the body of the first loop works on for an entry, given what
    [model] was bound to before. *)
Definition effective_model (model : option Model) (model_conf : model_conf)
    : option Model :=
  match instantiate model_conf with
  | Ok m => Some m
  | Raise _ => model
  end.

(** The names of the entries whose iteration works on a model with at
    least one member, in configuration order. *)
Fixpoint tab_names (models : list (string * model_conf)) (model : option Model)
    : list string :=
  match models with
  | [] => []
  | (model_name, model_conf) :: models' =>
      let model' := effective_model model model_conf in
      match model' with
      | Some m => if len m =? 0 then [] else [model_name]
      | None => []
      end ++ tab_names models' model'
  end.

(** What a run of the first loop prints when nothing goes wrong after
    instantiation: every name, followed by the report of its failure if
    its instantiation raised. *)
Definition instantiation_log (models : list (string * model_conf)) : list out :=
  flat_map (λ '(model_name, model_conf),
              Print_str model_name ::
              match instantiate model_conf with
              | Ok _ => []
              | Raise e => [Print_str ("could not instantiate " +:+ model_name);
                            Print_exn e]
              end) models.

(** The component ids a tab puts in the layout. *)
Definition tab_graph_output (tab : Tab) : dependency :=
  (graph_id_of (tab_graph tab), "figure").

Definition tab_checklist_input (tab : Tab) : dependency :=
  (checklist_id (checklist (tab_equation_divs tab)), "value").

(** The two inputs [generate_range_slider_callback] declares for a
    parameter: its range slider and its point-count input. *)
Definition range_inputs (graph_id k : string) : list dependency :=
  [("rangeslider-" +:+ graph_id +:+ "-" +:+ k, "value");
   ("input-" +:+ graph_id +:+ "-" +:+ k, "value")].

(** A slider position and a point count, as Dash hands them over. *)
Definition control_values (domain : Q * Q * Z) : list prop_value :=
  let '(lo, hi, n) := domain in [Range [lo; hi]; Count n].

Definition materialize (domain : Q * Q * Z) : samples :=
  let '(lo, hi, n) := domain in linspace lo hi (Z.to_nat n).

(** ** generate_callbacks *)

From stdpp Require Import pretty.

(** The names of the positional parameters of
    [generate_range_slider_callback]. *)
Definition positional_names : list string :=
  ["app"; "graph_id"; "varname"; "model"].

(** [k] names a parameter that the call already binds by position. *)
Definition clashes (plot_args : kwargs) : bool :=
  existsb (λ k, bool_decide (k ∈ positional_names)) (dict_keys plot_args).

(** The call
    [generate_range_slider_callback(app, graph_id, varname, model, **plot_args)]:
    expanding a key that names one of the four positional parameters is a
    [TypeError] (multiple values for the argument), raised before the body
    runs. *)
Definition call_generate_range_slider_callback (app : App)
    (graph_id varname : string) (model : Model) (plot_args : kwargs) : M App :=
  if clashes plot_args then raise TypeError
  else generate_range_slider_callback app graph_id varname model plot_args.

(** The loop of [generate_callbacks] over
    [graph_id, (chart_type, varname, plot_args, model, graph)]. *)
Fixpoint generate_callbacks_loop (app : App)
    (its : list (string * (string * string * kwargs * Model * Graph))) : M App :=
  match its with
  | [] => mret app
  | (graph_id, (chart_type, varname, plot_args, model, graph)) :: its' =>
      app' ← (if String.eqb chart_type "line" then
                call_generate_range_slider_callback app graph_id varname model
                  plot_args
              else
                print ("cannot generate callback for chart_type " +:+ chart_type);;
                mret app);
      generate_callbacks_loop app' its'
  end.

Definition generate_callbacks (app : App)
    (graphs : dict (string * string * kwargs * Model * Graph)) : M App :=
  print ("generating callbacks for " +:+ pretty (length graphs) +:+ " graphs");;
  generate_callbacks_loop app graphs.

(** ** get_range_slider *)

(** [try: body / except: handler] for code that prints. *)
Definition try_except {A : Type} (body handler : M A) : M A :=
  match body with
  | (o, Ok a) => (o, Ok a)
  | (o, Raise _) => let '(o', r) := handler in (o ++ o', r)
  end.

(** The elements at positions [c], [c + k], [c + 2 k], ... of [v]. *)
Fixpoint every (k c : nat) {A : Type} (v : list A) : list A :=
  match v with
  | [] => []
  | x :: v' =>
      match c with
      | 0 => x :: every k (k - 1) v'
      | S c' => every k c' v'
      end
  end.

(** [v[::k]]: a zero step is an error. *)
Definition slice_step {A : Type} (k : nat) (v : list A) : result (list A) :=
  if k =? 0 then Raise ValueError else Ok (every k 0 v).

(** A dict keyed by numbers: a key equal to one already present takes its
    place. *)
Fixpoint number_dict_set (k : Q) (s : string) (d : list (Q * string))
    : list (Q * string) :=
  match d with
  | [] => [(k, s)]
  | (k', s') :: d' =>
      if Qeq_bool k k' then (k', s) :: d' else (k', s') :: number_dict_set k s d'
  end.

(** [{i: fmt(i) for i in l}] *)
Definition marks_of (fmt : Q → string) (l : list Q) : list (Q * string) :=
  foldl (λ d i, number_dict_set i (fmt i) d) [] l.

(** [min(v)] and [max(v)]: the first smallest and the first largest. *)
Fixpoint min_from (m : Q) (v : list Q) : Q :=
  match v with
  | [] => m
  | x :: v' => min_from (if Qle_bool m x then m else x) v'
  end.

Fixpoint max_from (m : Q) (v : list Q) : Q :=
  match v with
  | [] => m
  | x :: v' => max_from (if Qle_bool x m then m else x) v'
  end.

Definition py_min (v : list Q) : result Q :=
  match v with
  | [] => Raise ValueError
  | x :: v' => Ok (min_from x v')
  end.

Definition py_max (v : list Q) : result Q :=
  match v with
  | [] => Raise ValueError
  | x :: v' => Ok (max_from x v')
  end.

(** How Python renders a number: [type(x)], ["{0:0.2f}".format(x)] and
    [str(x)]. *)
Record rendering := {
  type_name : Q → string;
  format_2f : Q → string;
  str_number : Q → string
}.

Record RangeSlider := {
  slider_id : string;
  marks : list (Q * string);
  slider_min : Q;
  slider_max : Q;
  slider_step : Q;
  slider_value : list Q;
  updatemode : string
}.

Record NumberInput := {
  input_id : string;
  placeholder : string;
  input_type : string;
  input_value : nat;
  input_min : nat;
  input_max : nat
}.

Record slider_row := { row_slider : RangeSlider; row_input : NumberInput }.

(** The [try]/[except] that computes [marks] for one parameter. *)
Definition slider_marks (r : rendering) (v : samples) : M (list (Q * string)) :=
  try_except
    (x ← lift (item0 v);
     print ("type is: " +:+ type_name r x);;
     l ← lift (slice_step (length v / 31) v);
     mret (marks_of (format_2f r) l))
    (l ← lift (slice_step (length v / 31) v);
     mret (marks_of (str_number r) l)).

(** One iteration of the loop of [get_range_slider]. *)
Definition slider_row_of (r : rendering) (graph_id k : string) (v : samples)
    : M slider_row :=
  marks ← slider_marks r v;
  lo ← lift (py_min v);
  hi ← lift (py_max v);
  step ← lift (if length v =? 0 then Raise (Error "division by zero")
               else Ok ((hi - lo) / inject_Z (Z.of_nat (length v)))%Q);
  mret {| row_slider :=
            {| slider_id := "rangeslider-" +:+ graph_id +:+ "-" +:+ k;
               marks := marks;
               slider_min := lo;
               slider_max := hi;
               slider_step := step;
               slider_value := [lo; hi];
               updatemode := "drag" |};
          row_input :=
            {| input_id := "input-" +:+ graph_id +:+ "-" +:+ k;
               placeholder := "number of points in " +:+ k;
               input_type := "number";
               input_value := length v;
               input_min := 3;
               input_max := 10 * length v |} |}.

Fixpoint get_range_slider_loop (r : rendering) (graph_id : string)
    (its : list (string * samples)) (divs : list slider_row) : M (list slider_row) :=
  match its with
  | [] => mret divs
  | (k, v) :: its' =>
      row_div ← slider_row_of r graph_id k v;
      get_range_slider_loop r graph_id its' (divs ++ [row_div])
  end.

Definition get_range_slider (r : rendering) (graph_id : string) (kw : kwargs)
    : M (list slider_row) :=
  get_range_slider_loop r graph_id kw [].

(** What [get_range_slider] lays out for a parameter [kv.1] with samples
    [kv.2]. *)
Definition slider_row_ok (graph_id : string) (kv : string * samples)
    (row : slider_row) : Prop :=
  slider_id (row_slider row) = "rangeslider-" +:+ graph_id +:+ "-" +:+ kv.1
  ∧ input_id (row_input row) = "input-" +:+ graph_id +:+ "-" +:+ kv.1
  ∧ input_value (row_input row) = length kv.2
  ∧ input_min (row_input row) = 3
  ∧ input_max (row_input row) = 10 * length kv.2
  ∧ slider_value (row_slider row)
    = [slider_min (row_slider row); slider_max (row_slider row)]
  ∧ slider_min (row_slider row) ∈ kv.2
  ∧ slider_max (row_slider row) ∈ kv.2
  ∧ (∀ x, x ∈ kv.2 →
       (slider_min (row_slider row) <= x)%Q ∧ (x <= slider_max (row_slider row))%Q)
  ∧ length (marks (row_slider row)) ≤ 61.

(** The inputs a laid out row offers, and the values they hold at first. *)
Definition row_inputs (row : slider_row) : list dependency :=
  [(slider_id (row_slider row), "value"); (input_id (row_input row), "value")].

Definition row_domain (row : slider_row) : Q * Q * Z :=
  (slider_min (row_slider row), slider_max (row_slider row),
   Z.of_nat (input_value (row_input row))).

Definition row_values (row : slider_row) : list prop_value :=
  [Range (slider_value (row_slider row));
   Count (Z.of_nat (input_value (row_input row)))].

(** The entries of [graphs] for which [generate_callbacks] makes a call,
    and those among them whose keyword arguments clash with a positional
    parameter. *)
Definition is_line
    (entry : string * (string * string * kwargs * Model * Graph)) : Prop :=
  entry.2.1.1.1.1 = "line".

Definition clashing_line
    (entry : string * (string * string * kwargs * Model * Graph)) : Prop :=
  entry.2.1.1.1.1 = "line" ∧ clashes entry.2.1.1.2 = true.

(** The [input_dict] of [generate_range_slider_callback] for parameters
    [keys]: each maps to its range slider and its point-count input. *)
Definition input_dict_of (graph_id : string) (keys : list string)
    : dict (dependency * dependency) :=
  (λ k, (k, (("rangeslider-" +:+ graph_id +:+ "-" +:+ k, "value"),
             ("input-" +:+ graph_id +:+ "-" +:+ k, "value")))) <$> keys.

(** ** numpy.linspace on binary64

    What the call [np.linspace(start, stop, num)] computes: numpy's
    algorithm, operation by operation, on binary64 floats with their
    rounding, infinities and nan. *)

From Stdlib Require Import PrimFloat.
From Stdlib Require Uint63.

(** The float of a count or an index (exact below 2^53). *)
Definition of_nat64 (i : nat) : float :=
  of_uint63 (Uint63.of_Z (Z.of_nat i)).

(** [arange(0, num)] as floats. *)
Definition arange64 (num : nat) : list float := of_nat64 <$> seq 0 num.

(** [np.linspace(start, stop, num)] with [endpoint = True]: [arange] times
    the step plus [start] (through [arange / div * delta] when the step
    rounds to zero), the last point overwritten with [stop]. *)
Definition np_linspace (start stop : float) (num : nat) : list float :=
  let div := (num - 1)%nat in
  let delta := (stop - start)%float in
  let y := arange64 num in
  let y :=
    if (0 <? div)%nat then
      let step := (delta / of_nat64 div)%float in
      if PrimFloat.eqb step 0%float
      then (λ yi, yi / of_nat64 div * delta)%float <$> y
      else (λ yi, yi * step)%float <$> y
    else (λ yi, yi * delta)%float <$> y in
  let y := (λ yi, yi + start)%float <$> y in
  if (1 <? num)%nat then <[(num - 1)%nat := stop]> y else y.

(** The point [np_linspace] computes at an index before the last. *)
Definition interpolate (start stop : float) (num i : nat) : float :=
  let div := of_nat64 (num - 1) in
  let delta := (stop - start)%float in
  let step := (delta / div)%float in
  if PrimFloat.eqb step 0%float
  then (of_nat64 i / div * delta + start)%float
  else (of_nat64 i * step + start)%float.

(** The values of a range slider and of a point-count input, as floats,
    and the call of line 217 on them. *)
Inductive input64 :=
| Range64 (l : list float)
| Count64 (n : Z).

Definition linspace_call64 (a b : input64) : result (list float) :=
  match a, b with
  | Range64 [start; stop], Count64 num =>
      if (num <? 0)%Z then Raise ValueError
      else Ok (np_linspace start stop (Z.to_nat num))
  | _, _ => Raise TypeError
  end.

(** Any three consecutive points are the same distance apart. *)
Definition evenly_spaced (l : list float) : Prop :=
  ∀ i a b c,
    l !! i = Some a → l !! (i + 1) = Some b → l !! (i + 2) = Some c →
    PrimFloat.eqb (c - b)%float (b - a)%float = true.

(** * Properties *)

(** ** The monad *)

Lemma bind_Ok {A B : Type} (o : list out) (a : A) (f : A → M B) :
  ((o, Ok a) : M A) ≫= f = (o ++ (f a).1, (f a).2).
Proof. unfold mbind, M_bind. by destruct (f a). Qed.

Lemma bind_Raise {A B : Type} (o : list out) (e : exn) (f : A → M B) :
  ((o, Raise e) : M A) ≫= f = (o, Raise e).
Proof. done. Qed.

(** ** Dicts *)

Section dict_facts.
Context {V : Type}.
Implicit Types (d : dict V) (k : string) (v : V).

Lemma dict_get_set_eq k v d : dict_get k (dict_set k v d) = Some v.
Proof.
  induction d as [|[k' v'] d IH]; simpl.
  - by rewrite String.eqb_refl.
  - destruct (String.eqb k k') eqn:E; simpl; by rewrite ?String.eqb_refl, ?E.
Qed.

Lemma dict_get_set_ne k k' v d :
  k ≠ k' → dict_get k' (dict_set k v d) = dict_get k' d.
Proof.
  intros Hne. induction d as [|[k0 v0] d IH]; simpl.
  - destruct (String.eqb_spec k' k); congruence.
  - destruct (String.eqb_spec k k0) as [->|]; simpl.
    + destruct (String.eqb_spec k' k0); congruence.
    + by rewrite IH.
Qed.

Lemma dict_keys_set k v d :
  dict_keys (dict_set k v d) =
    if dict_in k d then dict_keys d else dict_keys d ++ [k].
Proof.
  unfold dict_in, dict_keys. induction d as [|[k0 v0] d IH]; csimpl; [done|].
  destruct (String.eqb_spec k k0) as [->|]; csimpl; [done|].
  rewrite IH. by destruct (dict_get k d).
Qed.

Lemma dict_get_Some_elem k v d : dict_get k d = Some v → (k, v) ∈ d.
Proof.
  induction d as [|[k0 v0] d IH]; simpl; [done|].
  destruct (String.eqb_spec k k0) as [->|].
  - intros [= ->]. left.
  - intros. right. auto.
Qed.

Lemma dict_get_None_keys k d : dict_get k d = None → k ∉ dict_keys d.
Proof.
  unfold dict_keys. induction d as [|[k0 v0] d IH]; csimpl.
  - intros _. apply not_elem_of_nil.
  - destruct (String.eqb_spec k k0); [done|].
    intros H. apply not_elem_of_cons. auto.
Qed.

Lemma dict_set_NoDup k v d : NoDup (dict_keys d) → NoDup (dict_keys (dict_set k v d)).
Proof.
  intros Hnd. rewrite dict_keys_set. unfold dict_in.
  destruct (dict_get k d) eqn:E; [done|].
  apply NoDup_app. split_and!; [done| |apply NoDup_singleton].
  intros x Hx ->%list_elem_of_singleton. by apply dict_get_None_keys in E.
Qed.

Lemma elem_dict_set k v k' v' d :
  (k', v') ∈ dict_set k v d → (k' = k ∧ v' = v) ∨ (k', v') ∈ d.
Proof.
  induction d as [|[k0 v0] d IH]; simpl.
  - intros [= -> ->]%list_elem_of_singleton. by left.
  - destruct (String.eqb_spec k k0) as [->|].
    + intros [[= -> ->]|H]%elem_of_cons; [by left|]. right. by right.
    + intros [[= -> ->]|H]%elem_of_cons; [right; left|].
      destruct (IH H); [by left|]. right. by right.
Qed.
End dict_facts.

(** ** Subplot composition *)

Lemma add_row_first_trace model model_params fig_subplots plot_count varname :
  add_row model model_params fig_subplots plot_count varname =
    first_trace model model_params varname ≫=
      λ t, add_trace fig_subplots t (plot_count + 1) 1.
Proof.
  unfold add_row, first_trace.
  by destruct (figure model varname ij _) as [fig|e].
Qed.

(** Inside the grid, [add_trace] appends the trace with its cell. *)
Lemma add_trace_in_grid fig t rows row :
  grid fig = Some (rows, 1) → 1 ≤ row ≤ rows →
  add_trace fig t row 1 =
    Ok {| grid := Some (rows, 1); fig_data := fig_data fig ++ [(t, Some (row, 1))] |}.
Proof.
  intros Hg [H1 H2]. unfold add_trace. rewrite Hg.
  assert ((1 <=? row) = true) as -> by by apply Nat.leb_le.
  assert ((row <=? rows) = true) as -> by by apply Nat.leb_le.
  done.
Qed.

Lemma subplots_loop_ok model model_params var_names : ∀ ts fig plot_count rows,
  Forall2 (λ varname t, first_trace model model_params varname = Ok t) var_names ts →
  grid fig = Some (rows, 1) →
  plot_count + length var_names ≤ rows →
  subplots_loop model model_params fig plot_count var_names =
    ([], Ok {| grid := Some (rows, 1);
               fig_data := fig_data fig ++ placed plot_count ts |}).
Proof.
  induction var_names as [|varname var_names IH];
    intros ts fig plot_count rows Hall Hg Hle.
  - apply Forall2_nil_inv_l in Hall as ->. simpl.
    destruct fig as [g d]; simpl in *. by rewrite Hg, app_nil_r.
  - apply Forall2_cons_inv_l in Hall as (t & ts' & Ht & Hall & ->).
    simpl in *. rewrite add_row_first_trace, Ht. simpl.
    rewrite (add_trace_in_grid _ _ rows) by (done || lia).
    rewrite (IH ts' _ (S plot_count) rows); [|done|done|simpl; lia].
    simpl. unfold placed. simpl. rewrite <- app_assoc. simpl.
    rewrite Nat.add_0_r.
    erewrite imap_ext; [reflexivity|].
    intros i x _. simpl. do 3 f_equal. lia.
Qed.

Lemma subplots_loop_fail model model_params good bad rest e : ∀ ts fig plot_count rows,
  Forall2 (λ varname t, first_trace model model_params varname = Ok t) good ts →
  first_trace model model_params bad = Raise e →
  grid fig = Some (rows, 1) →
  plot_count + length good ≤ rows →
  subplots_loop model model_params fig plot_count (good ++ bad :: rest) =
    ([Print_str ("could not plot " +:+ bad +:+ " with model_params:");
      Print_params model_params], Raise PreventUpdate).
Proof.
  induction good as [|varname good IH]; intros ts fig plot_count rows Hall Hbad Hg Hle.
  - simpl. by rewrite add_row_first_trace, Hbad.
  - apply Forall2_cons_inv_l in Hall as (t & ts' & Ht & Hall & ->).
    simpl in *. rewrite add_row_first_trace, Ht. simpl.
    rewrite (add_trace_in_grid _ _ rows) by (done || lia).
    apply (IH ts' _ (S plot_count) rows); [done|done|done|simpl; lia].
Qed.

Lemma make_subplots_pos n :
  n ≠ 0 → make_subplots n 1 = Ok {| grid := Some (n, 1); fig_data := [] |}.
Proof. intros Hn. unfold make_subplots. by destruct n. Qed.

(** Without names there is no grid: [make_subplots] refuses zero rows, which
    is why [update_subplot] tests the selection before composing. *)
Lemma make_kamodo_subplots_no_names model model_params :
  make_kamodo_subplots model [] model_params = ([], Raise ValueError).
Proof. done. Qed.

Lemma first_trace_Ok model model_params varname t :
  first_trace model model_params varname = Ok t ↔
  ∃ fig, figure model varname ij (dict_get_default varname [] model_params) = Ok fig
         ∧ data fig !! 0 = Some t.
Proof.
  unfold first_trace. destruct (figure model varname ij _) as [fig|e]; simpl.
  - destruct (data fig) as [|t' l] eqn:E; simpl; split.
    + done.
    + intros (fig' & [= <-] & H). by rewrite E in H.
    + intros [= ->]. exists fig. by rewrite E.
    + intros (fig' & [= <-] & H). rewrite E in H. by injection H as ->.
  - split; [done|]. by intros (? & ? & _).
Qed.



(** C2, as claimed, fails: with [f] raising and [g] evaluating, the
    composer does not return a figure holding [g]'s row.  It reports [f]
    and raises [PreventUpdate], whichever order the two are listed in. *)
Lemma failing_row_not_skipped :
  (∃ e, figure model_f_raises "f" ij (dict_get_default "f" [] params_fg) = Raise e)
  ∧ (∃ fig, figure model_f_raises "g" ij (dict_get_default "g" [] params_fg) = Ok fig)
  ∧ make_kamodo_subplots model_f_raises ["f"; "g"] params_fg =
      ([Print_str "could not plot f with model_params:"; Print_params params_fg],
       Raise PreventUpdate)
  ∧ make_kamodo_subplots model_f_raises ["g"; "f"] params_fg =
      ([Print_str "could not plot f with model_params:"; Print_params params_fg],
       Raise PreventUpdate)
  ∧ ¬ ∃ fig_subplots,
        (make_kamodo_subplots model_f_raises ["f"; "g"] params_fg).2 = Ok fig_subplots.
Proof.
  split_and!; [by eexists|by eexists|done|done|].
  by intros [fig H].
Qed.

(** C2, amended.  When the variables before [bad] evaluate and evaluating
    [bad] raises, composition reports [bad] together with the parameters
    and raises [PreventUpdate]: no figure is produced, the rows of the
    variables that did evaluate included.  A selection callback that hits
    this leaves the store, hence the published figure, as it was. *)
Theorem failing_row_aborts_composition model good bad rest model_params ts e :
  Forall2 (λ varname t,
      ∃ fig, figure model varname ij (dict_get_default varname [] model_params) = Ok fig
             ∧ data fig !! 0 = Some t) good ts →
  figure model bad ij (dict_get_default bad [] model_params) = Raise e →
  let report := [Print_str ("could not plot " +:+ bad +:+ " with model_params:");
                 Print_params model_params] in
  make_kamodo_subplots model (good ++ bad :: rest) model_params
    = (report, Raise PreventUpdate)
  ∧ update_subplot model model_params (good ++ bad :: rest)
    = (report, Raise PreventUpdate)
  ∧ ∀ graph_id model_name (store : gmap dependency prop_value),
      store !! ("checklist-" +:+ model_name, "value") = Some (Names (good ++ bad :: rest)) →
      run_callback (subplot_callback graph_id model model_name model_params) store
      = (report, store).
Proof.
  intros Hall Hbad report.
  assert (make_kamodo_subplots model (good ++ bad :: rest) model_params
          = (report, Raise PreventUpdate)) as Hmk.
  { unfold make_kamodo_subplots.
    rewrite make_subplots_pos by by destruct good.
    unfold lift. rewrite bind_Ok.
    erewrite subplots_loop_fail; [done| | |done|].
    - eapply Forall2_impl; [exact Hall|]. intros v t H. by apply first_trace_Ok.
    - unfold first_trace. by rewrite Hbad.
    - rewrite length_app. simpl. lia. }
  assert (update_subplot model model_params (good ++ bad :: rest)
          = (report, Raise PreventUpdate)) as Hup.
  { unfold update_subplot. rewrite length_app. simpl.
    by replace (0 <? length good + S (length rest)) with true
      by (symmetry; apply Nat.ltb_lt; lia). }
  split_and!; [done|done|].
  intros graph_id model_name store Hstore.
  unfold run_callback. simpl. rewrite Hstore. simpl. by rewrite Hup.
Qed.

Lemma failing_row_aborts_composition_witness :
  make_kamodo_subplots model_f_raises (["g"] ++ "f" :: ["g"]) params_fg
    = ([Print_str "could not plot f with model_params:"; Print_params params_fg],
       Raise PreventUpdate).
Proof.
  refine (proj1 (failing_row_aborts_composition model_f_raises ["g"] "f" ["g"]
                   params_fg [_] (Error "f cannot be evaluated") _ _)).
  - repeat constructor. eexists. split; reflexivity.
  - reflexivity.
Defined.

(** ** The registry loop *)

Lemma bind_inv_Ok {A B : Type} (m : M A) (f : A → M B) o b :
  m ≫= f = (o, Ok b) →
  ∃ o1 a o2, m = (o1, Ok a) ∧ f a = (o2, Ok b) ∧ o = o1 ++ o2.
Proof.
  destruct m as [o1 [a|e]]; [|done].
  rewrite bind_Ok. destruct (f a) as [o2 r] eqn:E. simpl.
  intros [= <- ->]. by exists o1, a, o2.
Qed.

(** What one successful iteration does to the loop state. *)
Lemma get_gui_body_Ok st model_name model_conf o st' :
  get_gui_body st (model_name, model_conf) = (o, Ok st') →
  ∃ model,
    st_model st' = Some model
    ∧ (instantiate model_conf = Ok model
       ∨ ∃ e, instantiate model_conf = Raise e ∧ st_model st = Some model)
    ∧ ((len model = 0
        ∧ st_tabs_children st' = st_tabs_children st
        ∧ st_graphs st' = st_graphs st)
       ∨ (len model ≠ 0 ∧ ∃ model_params fig_subplots o1 o2,
            resolve_params model model_conf = (o1, Ok model_params)
            ∧ make_kamodo_subplots model (dict_keys model_params) model_params
              = (o2, Ok fig_subplots)
            ∧ st_tabs_children st' = st_tabs_children st ++
                [{| label := model_name;
                    tab_equation_divs := get_equation_divs model model_name model_params;
                    tab_graph := {| graph_id_of := "graph-" +:+ model_name;
                                    graph_figure := fig_subplots |} |}]
            ∧ st_graphs st' = dict_set ("graph-" +:+ model_name)
                                (model, model_params, model_name) (st_graphs st))).
Proof.
  unfold get_gui_body, print. rewrite bind_Ok.
  intros H.
  assert (∃ o0 model, (instantiate model_conf = Ok model
              ∨ ∃ e, instantiate model_conf = Raise e ∧ st_model st = Some model)
            ∧ build_tab st model_name model_conf model = (o0, Ok st'))
    as (o0 & model & Hinst & Hb).
  { destruct (instantiate model_conf) as [model|e].
    - unfold mret, M_ret in H. rewrite bind_Ok in H. simpl in H.
      destruct (build_tab _ _ _ model) as [o0 r] eqn:E. simpl in H.
      injection H as _ ->. exists o0, model. eauto.
    - destruct (is_Exception e); [|done].
      unfold print, print_exn, mret, M_ret in H.
      rewrite !bind_Ok in H. simpl in H.
      destruct (st_model st) as [model|]; [|done].
      destruct (build_tab _ _ _ model) as [o0 r] eqn:E. simpl in H.
      injection H as _ ->. exists o0, model. eauto. }
  exists model. unfold build_tab in Hb.
  destruct (len model =? 0) eqn:Hlen.
  - injection Hb as _ <-. simpl. apply Nat.eqb_eq in Hlen. eauto 10.
  - apply Nat.eqb_neq in Hlen.
    apply bind_inv_Ok in Hb as (o1 & model_params & o2 & Hres & Hb & _).
    apply bind_inv_Ok in Hb as (o3 & fig & o4 & Hmk & Hb & _).
    injection Hb as _ <-. simpl. split_and!; [done|done|].
    right. split; [done|]. by exists model_params, fig, o1, o3.
Qed.

Lemma get_gui_loop_app st models1 models2 :
  get_gui_loop st (models1 ++ models2) =
    get_gui_loop st models1 ≫= λ st', get_gui_loop st' models2.
Proof.
  revert st. induction models1 as [|entry models1 IH]; intros st; simpl.
  - by destruct (get_gui_loop st models2).
  - destruct (get_gui_body st entry) as [o [st'|e]]; [|done].
    rewrite !bind_Ok, IH.
    destruct (get_gui_loop st' models1) as [o1 [st1|e1]]; [|done].
    rewrite !bind_Ok. simpl.
    destruct (get_gui_loop st1 models2). simpl. by rewrite app_assoc.
Qed.

(** Induction over the iterations of a successful run. *)
Lemma get_gui_loop_ind (P : loop_state → Prop) models : ∀ st o st',
  P st →
  (∀ st entry o st', entry ∈ models → P st →
     get_gui_body st entry = (o, Ok st') → P st') →
  get_gui_loop st models = (o, Ok st') → P st'.
Proof.
  induction models as [|entry models IH]; intros st o st' HP Hstep; simpl.
  - by intros [= _ <-].
  - intros (o1 & st1 & o2 & Hb & Hl & _)%bind_inv_Ok.
    eapply IH; [|by intros; eapply Hstep; [right|..]|done].
    eapply Hstep; [left|done..].
Qed.

Lemma get_gui_loop_graphs_wf models o st :
  get_gui_loop init_state models = (o, Ok st) → graphs_wf (st_graphs st).
Proof.
  apply (get_gui_loop_ind (λ st, graphs_wf (st_graphs st))).
  - split; [apply NoDup_nil_2|]. by intros ???? ?%elem_of_nil.
  - intros st0 [model_name model_conf] o0 st1 _ [Hnd Hk] Hb.
    apply get_gui_body_Ok in Hb as (model & _ & _ & [(_ & _ & ->)|(_ & Hb)]); [done|].
    destruct Hb as (model_params & fig & o1 & o2 & _ & _ & _ & ->).
    split; [by apply dict_set_NoDup|].
    intros gid m p n [[-> [= -> -> ->]]|H]%elem_dict_set; [done|eauto].
Qed.

(** ** Callback registration and dispatch *)

Lemma register_callbacks_spec graphs : ∀ app,
  tabs (register_callbacks app graphs) = tabs app
  ∧ callback_map (register_callbacks app graphs) =
      callback_map app ++ (entry_callback <$> graphs).
Proof.
  unfold register_callbacks.
  induction graphs as [|[gid [[m p] n]] graphs IH]; intros app; simpl.
  - by rewrite app_nil_r.
  - destruct (IH (generate_subplot_callback app gid m n p)) as [-> ->].
    split; [done|]. simpl. by rewrite <- app_assoc.
Qed.

Lemma checklist_id_inj n1 n2 :
  ("checklist-" +:+ n1, "value") = ("checklist-" +:+ n2, "value") → n1 = n2.
Proof. by intros [= ?]. Qed.

(** A selection callback listens to its own checklist only. *)
Lemma fire_subplot_other i n acc gid m p :
  i ≠ ("checklist-" +:+ n, "value") →
  fire i acc (subplot_callback gid m n p) = acc.
Proof.
  intros Hne. unfold fire. rewrite bool_decide_eq_false_2; [done|].
  simpl. by intros ->%list_elem_of_singleton.
Qed.

Lemma fire_subplot_own (n : string) (o : list out) (store : gmap dependency prop_value) gid m p var_names :
  store !! ("checklist-" +:+ n, "value") = Some (Names var_names) →
  fire ("checklist-" +:+ n, "value") (o, store) (subplot_callback gid m n p) =
    match update_subplot m p var_names with
    | (o', Ok fig) => (o ++ o', <[(gid, "figure") := Fig fig]> store)
    | (o', Raise _) => (o ++ o', store)
    end.
Proof.
  intros Hstore. unfold fire. rewrite bool_decide_eq_true_2 by (simpl; left).
  unfold run_callback. simpl. rewrite Hstore. simpl.
  by destruct (update_subplot m p var_names) as [o' [fig|e]].
Qed.

Lemma foldl_fire_others i acc (l : dict (Model * model_params_t * string)) :
  (∀ gid m p n, (gid, (m, p, n)) ∈ l → i ≠ ("checklist-" +:+ n, "value")) →
  foldl (fire i) acc (entry_callback <$> l) = acc.
Proof.
  induction l as [|[gid [[m p] n]] l IH]; intros H; simpl; [done|].
  rewrite fire_subplot_other by (eapply H; left). apply IH.
  intros. eapply H. by right.
Qed.

(** An empty selection never reaches the composer. *)
Lemma update_subplot_empty model model_params :
  update_subplot model model_params [] = ([], Raise PreventUpdate).
Proof. done. Qed.

Lemma get_gui_Ok models o app :
  get_gui models = (o, Ok app) ↔
  ∃ st, get_gui_loop init_state models = (o, Ok st)
        ∧ app = register_callbacks
                  {| tabs := st_tabs_children st; callback_map := [] |} (st_graphs st).
Proof.
  unfold get_gui. split.
  - intros (o1 & st & o2 & Hl & [= <- <-] & ->)%bind_inv_Ok.
    exists st. by rewrite app_nil_r.
  - intros (st & -> & ->). rewrite bind_Ok. simpl. by rewrite app_nil_r.
Qed.

Lemma get_gui_callbacks models o app :
  get_gui models = (o, Ok app) →
  ∃ graphs, graphs_wf graphs ∧ callback_map app = entry_callback <$> graphs.
Proof.
  intros (st & Hl & ->)%get_gui_Ok. exists (st_graphs st).
  split; [by eapply get_gui_loop_graphs_wf|].
  by destruct (register_callbacks_spec (st_graphs st)
                 {| tabs := st_tabs_children st; callback_map := [] |}) as [_ ->].
Qed.

Lemma foldl_fire_empty (i : dependency) (store : gmap dependency prop_value)
    (l : dict (Model * model_params_t * string)) :
  store !! i = Some (Names []) →
  foldl (fire i) ([], store) (entry_callback <$> l) = ([], store).
Proof.
  intros Hstore. induction l as [|[gid [[m p] n]] l IH]; simpl; [done|].
  destruct (decide (i = ("checklist-" +:+ n, "value"))) as [->|Hne].
  - by rewrite (fire_subplot_own _ _ _ _ _ _ []), update_subplot_empty.
  - by rewrite fire_subplot_other.
Qed.

(** C5.  In an app built by [get_gui], a selection event that carries an
    empty list prints nothing, runs no composition and changes no property
    but the checklist value itself: every figure in the store is the one
    that was there before. *)
Theorem empty_selection_is_noop (store : gmap dependency prop_value)
    models o app model_name :
  get_gui models = (o, Ok app) →
  let i := ("checklist-" +:+ model_name, "value") in
  on_event app i (Names []) store = ([], <[i := Names []]> store)
  ∧ (∀ model model_params,
       update_subplot model model_params [] = ([], Raise PreventUpdate))
  ∧ ∀ graph_id,
      (on_event app i (Names []) store).2 !! (graph_id, "figure")
      = store !! (graph_id, "figure").
Proof.
  intros (graphs & _ & Hcb)%get_gui_callbacks i.
  assert (on_event app i (Names []) store = ([], <[i := Names []]> store)) as Hev.
  { unfold on_event. rewrite Hcb. apply foldl_fire_empty, lookup_insert_eq. }
  split_and!; [done|done|].
  intros graph_id. rewrite Hev. simpl. by apply lookup_insert_ne.
Qed.

Lemma empty_selection_is_noop_witness :
  ∃ o app,
    get_gui [("A", conf_fg)] = (o, Ok app)
    ∧ on_event app ("checklist-A", "value") (Names []) ∅
      = ([], <[("checklist-A", "value") := Names []]> ∅).
Proof.
  eexists _, _. split; [reflexivity|].
  refine (proj1 (empty_selection_is_noop ∅ [("A", conf_fg)] _ _ "A" _)).
  reflexivity.
Defined.

Lemma graph_id_inj n1 n2 : "graph-" +:+ n1 = "graph-" +:+ n2 → n1 = n2.
Proof. by intros [= ?]. Qed.

(** Firing the checklist of the model registered under [gidA] runs the
    callback of that entry and no other. *)
Lemma foldl_fire_entry (store : gmap dependency prop_value)
    (graphs : dict (Model * model_params_t * string)) gidA mA pA nA var_names :
  graphs_wf graphs →
  dict_get gidA graphs = Some (mA, pA, nA) →
  store !! ("checklist-" +:+ nA, "value") = Some (Names var_names) →
  foldl (fire ("checklist-" +:+ nA, "value")) ([], store) (entry_callback <$> graphs)
  = match update_subplot mA pA var_names with
    | (o', Ok fig) => (o', <[(gidA, "figure") := Fig fig]> store)
    | (o', Raise _) => (o', store)
    end.
Proof.
  intros [Hnd Hk] Hget Hstore.
  apply dict_get_Some_elem in Hget as Hin.
  apply list_elem_of_split in Hin as (l1 & l2 & ->).
  assert (∀ gid m p n, (gid, (m, p, n)) ∈ l1 ++ l2 →
            ("checklist-" +:+ nA, "value") ≠ ("checklist-" +:+ n, "value")) as Hothers.
  { intros gid m p n Hin Heq. apply checklist_id_inj in Heq as <-.
    assert (gid = gidA) as ->.
    { rewrite (Hk gidA mA pA nA) by (apply elem_of_app; right; left).
      apply (Hk gid m p nA). apply elem_of_app.
      apply elem_of_app in Hin as [?|?]; [by left|right; by right]. }
    unfold dict_keys in Hnd. rewrite fmap_app, fmap_cons in Hnd. simpl in Hnd.
    apply NoDup_app in Hnd as (_ & Hd1 & Hd2).
    apply NoDup_cons in Hd2 as [Hd2 _].
    apply elem_of_app in Hin as [Hin|Hin].
    - apply (Hd1 gidA); [|left]. by apply (list_elem_of_fmap_2 fst) in Hin.
    - apply Hd2. by apply (list_elem_of_fmap_2 fst) in Hin. }
  assert (∀ gid m p n, (gid, (m, p, n)) ∈ l1 →
            ("checklist-" +:+ nA, "value") ≠ ("checklist-" +:+ n, "value")) as H1.
  { intros gid m p n Hin. apply (Hothers gid m p n), elem_of_app. by left. }
  assert (∀ gid m p n, (gid, (m, p, n)) ∈ l2 →
            ("checklist-" +:+ nA, "value") ≠ ("checklist-" +:+ n, "value")) as H2.
  { intros gid m p n Hin. apply (Hothers gid m p n), elem_of_app. by right. }
  rewrite fmap_app, foldl_app, fmap_cons. simpl.
  rewrite (foldl_fire_others _ _ l1 H1).
  rewrite (fire_subplot_own _ _ _ _ _ _ var_names) by done.
  rewrite (foldl_fire_others _ _ l2 H2).
  by destruct (update_subplot mA pA var_names) as [o' [fig|e]].
Qed.

(** C1.  Let [graphs] be the registry a successful [get_gui] run has
    built, and let [gidA] map to model [mA] with parameters [pA] and name
    [nA] in it.  The app is the one [get_gui] returns; [gidA] is
    ["graph-" + nA]; a selection event on A's checklist runs
    [update_subplot] on A's own model and parameters exactly once and
    publishes its figure to A's graph (or leaves the store alone when it
    raises); the figure of every other graph is what it was before. *)
Theorem selection_callback_isolated (store : gmap dependency prop_value)
    models o st gidA mA pA nA var_names :
  get_gui_loop init_state models = (o, Ok st) →
  dict_get gidA (st_graphs st) = Some (mA, pA, nA) →
  let app := register_callbacks
               {| tabs := st_tabs_children st; callback_map := [] |} (st_graphs st) in
  let i := ("checklist-" +:+ nA, "value") in
  get_gui models = (o, Ok app)
  ∧ gidA = "graph-" +:+ nA
  ∧ on_event app i (Names var_names) store
    = match update_subplot mA pA var_names with
      | (o', Ok fig) =>
          (o', <[(gidA, "figure") := Fig fig]> (<[i := Names var_names]> store))
      | (o', Raise _) => (o', <[i := Names var_names]> store)
      end
  ∧ ∀ gidB, gidB ≠ gidA →
      (on_event app i (Names var_names) store).2 !! (gidB, "figure")
      = store !! (gidB, "figure").
Proof.
  intros Hloop Hget app i.
  pose proof (get_gui_loop_graphs_wf _ _ _ Hloop) as Hwf.
  assert (get_gui models = (o, Ok app)) as Hgui by (apply get_gui_Ok; eauto).
  assert (on_event app i (Names var_names) store
    = match update_subplot mA pA var_names with
      | (o', Ok fig) =>
          (o', <[(gidA, "figure") := Fig fig]> (<[i := Names var_names]> store))
      | (o', Raise _) => (o', <[i := Names var_names]> store)
      end) as Hev.
  { unfold on_event, app.
    destruct (register_callbacks_spec (st_graphs st)
                {| tabs := st_tabs_children st; callback_map := [] |}) as [_ ->].
    simpl. apply foldl_fire_entry; [done|done|apply lookup_insert_eq]. }
  split_and!; [done| |done|].
  - destruct Hwf as [_ Hk]. eapply Hk, dict_get_Some_elem, Hget.
  - intros gidB Hne. rewrite Hev.
    destruct (update_subplot mA pA var_names) as [o' [fig|e]]; simpl.
    + rewrite lookup_insert_ne by congruence. by apply lookup_insert_ne.
    + by apply lookup_insert_ne.
Qed.

Lemma selection_callback_isolated_witness :
  ∃ o st,
    get_gui_loop init_state [("A", conf_fg); ("B", conf_double)] = (o, Ok st)
    ∧ dict_get "graph-A" (st_graphs st) = Some (model_fg, params_fg, "A")
    ∧ (on_event
         (register_callbacks
            {| tabs := st_tabs_children st; callback_map := [] |} (st_graphs st))
         ("checklist-A", "value") (Names ["g"]) ∅).2 !! ("graph-B", "figure")
      = (∅ : gmap dependency prop_value) !! ("graph-B", "figure").
Proof.
  eexists _, _. split; [reflexivity|]. split; [reflexivity|].
  apply (proj2 (proj2 (proj2
    (selection_callback_isolated ∅ [("A", conf_fg); ("B", conf_double)]
       _ _ "graph-A" model_fg params_fg "A" ["g"] eq_refl eq_refl)))).
  done.
Defined.

(** ** Instantiation failures *)

Lemma get_gui_loop_model models : ∀ st o st',
  get_gui_loop st models = (o, Ok st') →
  st_model st' = last_instantiated models (st_model st).
Proof.
  induction models as [|[model_name model_conf] models IH]; intros st o st'; simpl.
  - by intros [= _ <-].
  - intros (o1 & st1 & o2 & Hb & Hl & _)%bind_inv_Ok.
    rewrite (IH _ _ _ Hl).
    apply get_gui_body_Ok in Hb as (model & -> & [->|(e & -> & ->)] & _); done.
Qed.

Lemma get_gui_body_Raise st model_name model_conf e :
  instantiate model_conf = Raise e → is_Exception e = true →
  get_gui_body st (model_name, model_conf) =
    let report := [Print_str model_name;
                   Print_str ("could not instantiate " +:+ model_name);
                   Print_exn e] in
    match st_model st with
    | None => (report, Raise (NameError "model"))
    | Some prev =>
        (report ++ (build_tab st model_name model_conf prev).1,
         (build_tab st model_name model_conf prev).2)
    end.
Proof.
  intros He Hexc. unfold get_gui_body. rewrite He, Hexc.
  unfold print, print_exn, mret, M_ret. rewrite !bind_Ok. simpl.
  destruct (st_model st) as [prev|]; [|done].
  by destruct (build_tab st model_name model_conf prev).
Qed.

Lemma get_gui_body_instantiated st model_name model_conf model :
  instantiate model_conf = Ok model →
  get_gui_body st (model_name, model_conf) =
    (Print_str model_name :: (build_tab st model_name model_conf model).1,
     (build_tab st model_name model_conf model).2).
Proof.
  intros Hm. unfold get_gui_body. rewrite Hm.
  unfold print, mret, M_ret. rewrite !bind_Ok. simpl.
  by destruct (build_tab st model_name model_conf model).
Qed.

Lemma get_gui_loop_cons st entry models :
  get_gui_loop st (entry :: models) =
    get_gui_body st entry ≫= λ st', get_gui_loop st' models.
Proof. done. Qed.

Lemma get_gui_loop_singleton st entry :
  get_gui_loop st [entry] = get_gui_body st entry.
Proof.
  rewrite get_gui_loop_cons. destruct (get_gui_body st entry) as [o [st'|e]]; [|done].
  rewrite bind_Ok. simpl. by rewrite app_nil_r.
Qed.

(** [build_tab] reads [model_conf.plot] only. *)
Lemma build_tab_plot st model_name c1 c2 model :
  plot c1 = plot c2 →
  build_tab st model_name c1 model = build_tab st model_name c2 model.
Proof. intros H. unfold build_tab, resolve_params. by rewrite H. Qed.



(** C3 on two inputs.  When the first model fails to instantiate, the
    build stops with [NameError] and the model after it is never
    processed.  When a later model fails, it is not skipped: it gets a tab
    of its own, built from the model before it. *)
Theorem instantiation_failure_not_isolated :
  get_gui [("B", conf_failing); ("A", conf_fg)]
  = ([Print_str "B"; Print_str "could not instantiate B";
      Print_exn (Error "cannot import model")],
     Raise (NameError "model"))
  ∧ ∃ o app tabA tabB,
      get_gui [("A", conf_fg); ("B", conf_failing)] = (o, Ok app)
      ∧ tabs app = [tabA; tabB]
      ∧ label tabB = "B"
      ∧ tab_equation_divs tabB = get_equation_divs model_fg "B" params_fg
      ∧ graph_figure (tab_graph tabB) = graph_figure (tab_graph tabA).
Proof.
  split; [done|].
  eexists _, _, _, _. split; [reflexivity|]. simpl. done.
Qed.

(** ** Default resolution *)

(** C4, as claimed, fails: a null plot entry for a variable without
    declared defaults ends the whole build with [SystemExit]; the model
    listed after it is never processed and no app is returned. *)
Lemma missing_defaults_is_fatal :
  declared_defaults model_no_defaults "f" = Raise (Error "no defaults")
  ∧ (∃ o app, get_gui [("B", conf_fg)] = (o, Ok app))
  ∧ get_gui [("A", conf_null_entry); ("B", conf_fg)]
    = ([Print_str "A"; Print_str "f"; Print_exn (Error "no defaults")],
       Raise SystemExit)
  ∧ ¬ ∃ o app, get_gui [("A", conf_null_entry); ("B", conf_fg)] = (o, Ok app).
Proof.
  split_and!; [done|by eexists _, _|done|].
  by intros (o & app & H).
Qed.

Lemma let_pair_eta {A B : Type} (p : A * B) : (let '(a, b) := p in (a, b)) = p.
Proof. by destruct p. Qed.

Lemma plot_loop_app model entries1 entries2 : ∀ model_params,
  plot_loop model (entries1 ++ entries2) model_params =
    plot_loop model entries1 model_params ≫= plot_loop model entries2.
Proof.
  induction entries1 as [|[var_name [a|]] entries1 IH]; intros model_params; simpl.
  - by destruct (plot_loop model entries2 model_params).
  - destruct (eval_config a) as [d|e]; simpl; [|done].
    by rewrite !let_pair_eta.
  - destruct (declared_defaults model var_name) as [d|e]; [by rewrite IH|].
    by destruct (is_Exception e).
Qed.

(** C4, amended.  When an instantiated, non-empty model has a null plot
    entry for [var_name], the entries before it resolve, and fetching the
    declared defaults of [var_name] raises an [Exception], the failure is
    reported ([model.detail], then the exception) and [sys.exit()] ends
    [get_gui] with [SystemExit]: nothing listed after that model is
    processed and no app is produced. *)
Theorem missing_defaults_exits pre model_name model_conf post o st model
    entries1 var_name entries2 o1 params1 e :
  get_gui_loop init_state pre = (o, Ok st) →
  instantiate model_conf = Ok model →
  len model ≠ 0 →
  plot model_conf = Some (entries1 ++ (var_name, None) :: entries2) →
  plot_loop model entries1 [] = (o1, Ok params1) →
  declared_defaults model var_name = Raise e →
  is_Exception e = true →
  get_gui (pre ++ (model_name, model_conf) :: post)
  = (o ++ [Print_str model_name] ++ o1
       ++ [Print_str (detail model); Print_exn e],
     Raise SystemExit).
Proof.
  intros Hloop Hm Hlen Hplot H1 Hdef Hexc.
  unfold get_gui.
  rewrite get_gui_loop_app, Hloop, bind_Ok, get_gui_loop_cons.
  rewrite (get_gui_body_instantiated _ _ _ model) by done.
  assert (build_tab st model_name model_conf model
          = (o1 ++ [Print_str (detail model); Print_exn e], Raise SystemExit)) as ->.
  { unfold build_tab. apply Nat.eqb_neq in Hlen. rewrite Hlen.
    unfold resolve_params. rewrite Hplot, plot_loop_app, H1, bind_Ok.
    simpl. by rewrite Hdef, Hexc. }
  done.
Qed.

Lemma missing_defaults_exits_witness :
  get_gui ([("B", conf_fg)] ++ ("A", conf_null_entry) :: [("C", conf_double)])
  = ([Print_str "B"] ++ [Print_str "A"] ++ []
       ++ [Print_str (detail model_no_defaults); Print_exn (Error "no defaults")],
     Raise SystemExit).
Proof.
  eapply (missing_defaults_exits [("B", conf_fg)] "A" conf_null_entry
            [("C", conf_double)] _ _ model_no_defaults [] "f" []);
    [reflexivity|reflexivity|done|reflexivity|reflexivity|reflexivity|reflexivity].
Defined.

(** ** Which models get a tab *)

(** C8, as claimed, fails: a model whose only member is a parameter
    placeholder has no Dependent variable, yet it is given a tab (with an
    empty checklist). *)
Lemma placeholder_model_has_tab :
  dependent_variables model_placeholder = []
  ∧ ∃ o app tab,
      get_gui [("P", conf_placeholder)] = (o, Ok app)
      ∧ tabs app = [tab]
      ∧ label tab = "P"
      ∧ options (checklist (tab_equation_divs tab)) = [].
Proof.
  split; [done|]. eexists _, _, _. split; [reflexivity|]. done.
Qed.

(** Every tab comes from an entry of the configuration whose iteration ran
    on a model with at least one member. *)
Lemma get_gui_loop_labels models : ∀ st o st' l,
  get_gui_loop st models = (o, Ok st') →
  l ∈ label <$> st_tabs_children st' →
  l ∈ label <$> st_tabs_children st
  ∨ ∃ model_conf, (l, model_conf) ∈ models
      ∧ ∀ model, instantiate model_conf = Ok model → len model ≠ 0.
Proof.
  induction models as [|[model_name model_conf] models IH]; intros st o st' l; simpl.
  - intros [= _ <-]. by left.
  - intros (o1 & st1 & o2 & Hb & Hl & _)%bind_inv_Ok Hin.
    destruct (IH _ _ _ _ Hl Hin) as [Hin1|(c & Hc & Hlen)].
    + apply get_gui_body_Ok in Hb as (model & _ & Hinst & [(_ & Ht & _)|(Hlen & Hb)]).
      { left. by rewrite <- Ht. }
      destruct Hb as (p & fig & ? & ? & _ & _ & Ht & _).
      rewrite Ht, fmap_app in Hin1.
      apply elem_of_app in Hin1 as [?|Hin1]; [by left|].
      apply list_elem_of_singleton in Hin1 as ->. simpl.
      right. exists model_conf. split; [left|].
      intros model' Hm'. destruct Hinst as [?|(e & ? & _)]; congruence.
    + right. exists c. split; [by right|done].
Qed.

Lemma NoDup_keys_unique {A B : Type} (l : list (A * B)) k v1 v2 :
  NoDup l.*1 → (k, v1) ∈ l → (k, v2) ∈ l → v1 = v2.
Proof.
  induction l as [|[k0 v0] l IH]; csimpl; [by intros _ ?%elem_of_nil|].
  intros [Hk Hnd]%NoDup_cons [[= -> ->]|H1]%elem_of_cons [[= ->]|H2]%elem_of_cons.
  - done.
  - destruct Hk. by apply (list_elem_of_fmap_2 fst) in H2.
  - simplify_eq. destruct Hk. by apply (list_elem_of_fmap_2 fst) in H1.
  - by apply IH.
Qed.

(** C8, amended.  In a configuration without repeated names, a model that
    instantiates to an object without members gets no tab. *)
Theorem empty_model_has_no_tab models o app model_name model_conf model :
  NoDup models.*1 →
  get_gui models = (o, Ok app) →
  (model_name, model_conf) ∈ models →
  instantiate model_conf = Ok model →
  len model = 0 →
  model_name ∉ label <$> tabs app.
Proof.
  intros Hnd (st & Hloop & ->)%get_gui_Ok Hin Hm Hlen Hlabel.
  destruct (register_callbacks_spec (st_graphs st)
              {| tabs := st_tabs_children st; callback_map := [] |}) as [Ht _].
  rewrite Ht in Hlabel. simpl in Hlabel.
  destruct (get_gui_loop_labels _ _ _ _ _ Hloop Hlabel) as [H|(c & Hc & Hc')].
  - simpl in H. by apply elem_of_nil in H.
  - assert (c = model_conf) as ->.
    { eapply NoDup_keys_unique; [exact Hnd|exact Hc|exact Hin]. }
    by apply (Hc' model).
Qed.

Lemma empty_model_has_no_tab_witness :
  ∃ o app,
    get_gui [("A", conf_fg); ("E", conf_empty)] = (o, Ok app)
    ∧ "E" ∉ label <$> tabs app.
Proof.
  eexists _, _. split; [reflexivity|].
  eapply (empty_model_has_no_tab [("A", conf_fg); ("E", conf_empty)] _ _
           "E" conf_empty model_empty); [|reflexivity| |reflexivity|reflexivity].
  - by apply (bool_decide_unpack _).
  - right. left.
Defined.

(** ** Domain materialization *)

Lemma arange64_lookup num i :
  i < num → arange64 num !! i = Some (of_nat64 i).
Proof.
  intros Hi. unfold arange64. by rewrite list_lookup_fmap, lookup_seq_lt.
Qed.

Lemma np_linspace_length start stop num :
  length (np_linspace start stop num) = num.
Proof.
  unfold np_linspace, arange64.
  destruct (1 <? num), (0 <? num - 1);
    try destruct (PrimFloat.eqb _ _);
    rewrite ?length_insert, !length_fmap, length_seq; done.
Qed.




(** ** Range edits *)


Lemma on_event_not_checklist (store : gmap dependency prop_value)
    models o app i v :
  get_gui models = (o, Ok app) →
  (∀ n, i ≠ ("checklist-" +:+ n, "value")) →
  on_event app i v store = ([], <[i := v]> store).
Proof.
  intros (graphs & _ & Hcb)%get_gui_callbacks Hi.
  unfold on_event. rewrite Hcb. apply foldl_fire_others. intros. apply Hi.
Qed.


(** * Further properties of the code *)

(** ** make_kamodo_subplots: all or nothing *)

(** Going through the names in order, either every one evaluates or there
    is a first one that does not. *)
Lemma first_failure model model_params var_names :
  (∃ ts, Forall2 (λ varname t, first_trace model model_params varname = Ok t)
           var_names ts)
  ∨ ∃ good bad rest ts e,
      var_names = good ++ bad :: rest
      ∧ Forall2 (λ varname t, first_trace model model_params varname = Ok t) good ts
      ∧ first_trace model model_params bad = Raise e.
Proof.
  induction var_names as [|v var_names IH].
  - left. exists []. constructor.
  - destruct (first_trace model model_params v) as [t|e] eqn:E.
    + destruct IH as [[ts Hts]|(good & bad & rest & ts & e & -> & Hts & Hbad)].
      * left. exists (t :: ts). by constructor.
      * right. exists (v :: good), bad, rest, (t :: ts), e.
        split_and!; [done|by constructor|done].
    + right. exists [], v, var_names, [], e. split_and!; [done|constructor|done].
Qed.

Lemma make_kamodo_subplots_all_ok model model_params var_names ts :
  var_names ≠ [] →
  Forall2 (λ varname t, first_trace model model_params varname = Ok t) var_names ts →
  make_kamodo_subplots model var_names model_params
  = ([], Ok {| grid := Some (length var_names, 1); fig_data := placed 0 ts |}).
Proof.
  intros Hne Hall. unfold make_kamodo_subplots.
  rewrite make_subplots_pos by by destruct var_names.
  unfold lift. rewrite bind_Ok.
  by erewrite subplots_loop_ok; [|done|done|simpl; lia].
Qed.

Lemma make_kamodo_subplots_first_bad model model_params good bad rest ts e :
  Forall2 (λ varname t, first_trace model model_params varname = Ok t) good ts →
  first_trace model model_params bad = Raise e →
  make_kamodo_subplots model (good ++ bad :: rest) model_params
  = ([Print_str ("could not plot " +:+ bad +:+ " with model_params:");
      Print_params model_params], Raise PreventUpdate).
Proof.
  intros Hall Hbad. unfold make_kamodo_subplots.
  rewrite make_subplots_pos by by destruct good.
  unfold lift. rewrite bind_Ok.
  erewrite subplots_loop_fail; [done|done|done|done|].
  rewrite length_app. simpl. lia.
Qed.

Lemma make_kamodo_subplots_Ok_inv_aux model var_names model_params o fig_subplots :
  make_kamodo_subplots model var_names model_params = (o, Ok fig_subplots) →
  o = [] ∧ var_names ≠ []
  ∧ ∃ ts,
      Forall2 (λ varname t, first_trace model model_params varname = Ok t) var_names ts
      ∧ fig_subplots = {| grid := Some (length var_names, 1);
                          fig_data := imap (λ i t, (t, Some (i + 1, 1))) ts |}.
Proof.
  intros H.
  destruct var_names as [|v var_names]; [done|].
  destruct (first_failure model model_params (v :: var_names))
    as [[ts Hts]|(good & bad & rest & ts & e & Heq & Hts & Hbad)].
  - rewrite (make_kamodo_subplots_all_ok _ _ _ ts) in H by done.
    injection H as <- <-. split_and!; [done|done|]. by exists ts.
  - rewrite Heq, (make_kamodo_subplots_first_bad _ _ _ _ _ ts e) in H by done.
    done.
Qed.

(** X1.  Whenever composition returns a figure, it printed nothing, the
    list of names was not empty, every name evaluated to a figure with a
    first trace, and the result is the grid of one row per name holding
    those first traces in the order of the names. *)
Theorem make_kamodo_subplots_Ok_inv model var_names model_params o fig_subplots :
  make_kamodo_subplots model var_names model_params = (o, Ok fig_subplots) →
  o = [] ∧ var_names ≠ []
  ∧ ∃ ts,
      Forall2 (λ varname t,
          ∃ fig, figure model varname ij (dict_get_default varname [] model_params)
                 = Ok fig ∧ data fig !! 0 = Some t) var_names ts
      ∧ fig_subplots = {| grid := Some (length var_names, 1);
                          fig_data := imap (λ i t, (t, Some (i + 1, 1))) ts |}.
Proof.
  intros (-> & Hne & ts & Hts & ->)%make_kamodo_subplots_Ok_inv_aux.
  split_and!; [done|done|]. exists ts. split; [|done].
  eapply Forall2_impl; [exact Hts|]. intros x t Hx. by apply first_trace_Ok.
Qed.

Lemma make_kamodo_subplots_Ok_inv_witness :
  ([] : list out) = [] ∧ ["g"] ≠ [].
Proof.
  destruct (make_kamodo_subplots_Ok_inv model_fg ["g"] params_fg _ _ eq_refl)
    as (H1 & H2 & _).
  split; [exact H1|exact H2].
Defined.

(** X2.  The selection callback has three outcomes and no other: a figure,
    with nothing printed; a silent [PreventUpdate] for the empty
    selection; or the two-line report about one of the selected names
    followed by [PreventUpdate].  In particular it never lets the
    [ValueError] of an empty grid, or the exception of a failing variable,
    reach Dash. *)
Theorem update_subplot_outcomes model model_params var_names :
  (∃ fig, update_subplot model model_params var_names = ([], Ok fig))
  ∨ (var_names = []
     ∧ update_subplot model model_params var_names = ([], Raise PreventUpdate))
  ∨ ∃ bad, bad ∈ var_names
      ∧ update_subplot model model_params var_names
        = ([Print_str ("could not plot " +:+ bad +:+ " with model_params:");
            Print_params model_params], Raise PreventUpdate).
Proof.
  destruct var_names as [|v var_names]; [right; by left|].
  unfold update_subplot. simpl length. cbn [Nat.ltb Nat.leb].
  destruct (first_failure model model_params (v :: var_names))
    as [[ts Hts]|(good & bad & rest & ts & e & Heq & Hts & Hbad)].
  - left. eexists. by apply (make_kamodo_subplots_all_ok _ _ _ ts).
  - right. right. exists bad. split.
    + rewrite Heq. apply elem_of_app. right. left.
    + rewrite Heq. by apply (make_kamodo_subplots_first_bad _ _ _ _ _ ts e).
Qed.

(** X3.  The trace shown for a variable does not depend on what else is
    selected or on where it stands in the selection: in two figures
    composed from the same model and parameters, a name listed at
    position [i] of one and [j] of the other has the same trace at row
    [i + 1] of the first and row [j + 1] of the second. *)
Theorem trace_independent_of_selection model model_params
    names1 names2 o1 o2 fig1 fig2 i j varname :
  make_kamodo_subplots model names1 model_params = (o1, Ok fig1) →
  make_kamodo_subplots model names2 model_params = (o2, Ok fig2) →
  names1 !! i = Some varname →
  names2 !! j = Some varname →
  ∃ t, fig_data fig1 !! i = Some (t, Some (i + 1, 1))
       ∧ fig_data fig2 !! j = Some (t, Some (j + 1, 1)).
Proof.
  intros (_ & _ & ts1 & H1 & ->)%make_kamodo_subplots_Ok_inv_aux
         (_ & _ & ts2 & H2 & ->)%make_kamodo_subplots_Ok_inv_aux Hi Hj.
  destruct (Forall2_lookup_l _ _ _ _ _ H1 Hi) as (t1 & Ht1 & Hf1).
  destruct (Forall2_lookup_l _ _ _ _ _ H2 Hj) as (t2 & Ht2 & Hf2).
  assert (t2 = t1) as -> by congruence.
  exists t1. simpl. rewrite !list_lookup_imap, Ht1, Ht2. done.
Qed.

Lemma trace_independent_of_selection_witness :
  ∃ t, fig_data
         {| grid := Some (2, 1);
            fig_data := imap (λ i t, (t, Some (i + 1, 1)))
                          (data (line (λ x, x * x)%Q [("x", [0; 1; 2]%Q)])
                           ++ data (line (λ x, x + 1)%Q [("x", [0; 1; 2]%Q)])) |} !! 1
       = Some (t, Some (1 + 1, 1))
       ∧ fig_data
           {| grid := Some (1, 1);
              fig_data := imap (λ i t, (t, Some (i + 1, 1)))
                            (data (line (λ x, x + 1)%Q [("x", [0; 1; 2]%Q)])) |} !! 0
         = Some (t, Some (0 + 1, 1)).
Proof.
  apply (trace_independent_of_selection model_fg params_fg ["f"; "g"] ["g"]
           [] [] _ _ 1 0 "g"); reflexivity.
Defined.

(** ** get_equation_divs *)

Lemma equation_loop_spec model model_name model_params its :
  ∀ equations options selected,
  equation_loop model model_name model_params its equations options selected
  = let deps := filter (λ s, type_is_UndefinedFunction s = false) its.*1 in
    (equations ++
       ((λ s, {| katex_id := model_name +:+ "-" +:+ str s +:+ "-expression";
                 expression := to_latex model (str s) |}) <$> deps),
     options ++ (type_str <$> deps),
     selected ++ filter (λ l, dict_in l model_params = true) (type_str <$> deps)).
Proof.
  induction its as [|[s f] its IH]; intros equations options selected; csimpl.
  - by rewrite !app_nil_r.
  - destruct (type_is_UndefinedFunction s) eqn:E; simpl.
    + rewrite IH. rewrite filter_cons_False by (simpl; congruence). done.
    + rewrite IH. rewrite filter_cons_True by done. csimpl.
      rewrite <- !app_assoc. simpl.
      destruct (dict_in (type_str s) model_params) eqn:Hin.
      * rewrite filter_cons_True by done. by rewrite <- app_assoc.
      * rewrite filter_cons_False by (simpl; congruence). done.
Qed.

(** X4.  The checklist of a model is keyed by the model name; it offers
    one option per member whose key is not of type [UndefinedFunction], in
    the order of [model.items()], labelled by [str(type(key))], with one
    rendered equation each; the options ticked at the start are exactly
    those that are keys of [model_params], so every ticked value is among
    the options. *)
Theorem get_equation_divs_spec model model_name model_params :
  let divs := get_equation_divs model model_name model_params in
  let deps := dependent_variables model in
  checklist_id (checklist divs) = "checklist-" +:+ model_name
  ∧ options (checklist divs) = type_str <$> deps
  ∧ value (checklist divs)
    = filter (λ l, dict_in l model_params = true) (type_str <$> deps)
  ∧ equations divs
    = (λ s, {| katex_id := model_name +:+ "-" +:+ str s +:+ "-expression";
               expression := to_latex model (str s) |}) <$> deps
  ∧ value (checklist divs) ⊆ options (checklist divs).
Proof.
  unfold get_equation_divs, dependent_variables.
  rewrite equation_loop_spec. simpl.
  split_and!; [done..|].
  intros l Hl. by apply list_elem_of_filter in Hl as [_ Hl].
Qed.

(** ** Parameter resolution *)

Lemma dict_set_fresh {V : Type} k (v : V) (d : dict V) :
  k ∉ dict_keys d → dict_set k v d = d ++ [(k, v)].
Proof.
  unfold dict_keys. induction d as [|[k' v'] d IH]; csimpl; [done|].
  intros [Hne Hd]%not_elem_of_cons.
  destruct (String.eqb_spec k k'); [done|]. by rewrite IH.
Qed.

Lemma defaults_loop_ok its : ∀ ds acc,
  Forall2 (λ sf d, get_defaults sf.2 = Ok d)
    (filter (λ sf, type_is_UndefinedFunction sf.1 = true) its) ds →
  NoDup (dict_keys acc ++
           (str <$> (filter (λ sf, type_is_UndefinedFunction sf.1 = true) its).*1)) →
  defaults_loop its acc
  = Ok (acc ++ zip (str <$> (filter (λ sf, type_is_UndefinedFunction sf.1 = true)
                               its).*1) ds).
Proof.
  induction its as [|[s f] its IH]; intros ds acc Hds Hnd.
  - rewrite filter_nil in Hds. apply Forall2_nil_inv_l in Hds as ->.
    simpl. by rewrite app_nil_r.
  - simpl. destruct (type_is_UndefinedFunction s) eqn:E.
    + rewrite filter_cons_True in Hds, Hnd |- * by done.
      apply Forall2_cons_inv_l in Hds as (d & ds' & Hd & Hds & ->).
      simpl in Hd. rewrite Hd. csimpl in *.
      apply NoDup_app in Hnd as (Hnd1 & Hdisj & Hnd2).
      assert (str s ∉ dict_keys acc) as Hfresh
        by (intros Hin; apply (Hdisj _ Hin); left).
      rewrite dict_set_fresh by done.
      rewrite IH with (ds := ds'); [by rewrite <- app_assoc|done|].
      unfold dict_keys. rewrite fmap_app. csimpl. rewrite <- app_assoc. simpl.
      apply NoDup_app. split_and!; [done|done|done].
    + rewrite filter_cons_False in Hds, Hnd |- * by (simpl; congruence).
      by apply IH.
Qed.

(** X5.  Without a plot configuration, when the members whose key is of
    type [UndefinedFunction] have pairwise different names and each has
    declared defaults, resolution prints nothing and yields one entry per
    such member, named [str(key)], holding its defaults, in the order of
    [model.items()]: the order the rows of the initial figure take. *)
Theorem resolve_params_declaration_order model model_conf ds :
  plot model_conf = None →
  NoDup (str <$> (parameter_members model).*1) →
  Forall2 (λ sf d, get_defaults sf.2 = Ok d) (parameter_members model) ds →
  resolve_params model model_conf
  = ([], Ok (zip (str <$> (parameter_members model).*1) ds)).
Proof.
  intros Hplot Hnd Hds. unfold resolve_params, lift. rewrite Hplot.
  by rewrite (defaults_loop_ok _ ds []).
Qed.

Lemma resolve_params_declaration_order_witness :
  resolve_params model_fg conf_fg
  = ([], Ok (zip (str <$> (parameter_members model_fg).*1)
               [[("x", [0; 1; 2]%Q)]; [("x", [0; 1; 2]%Q)]])).
Proof.
  apply (resolve_params_declaration_order model_fg conf_fg); [done| |].
  - by apply (bool_decide_unpack _).
  - repeat constructor.
Defined.

Lemma defaults_loop_raise its1 s f its2 e : ∀ acc,
  Forall (λ sf, type_is_UndefinedFunction sf.1 = true →
                ∃ d, get_defaults sf.2 = Ok d) its1 →
  type_is_UndefinedFunction s = true →
  get_defaults f = Raise e →
  defaults_loop (its1 ++ (s, f) :: its2) acc = Raise e.
Proof.
  induction its1 as [|[s1 f1] its1 IH]; intros acc Hall Hs Hf; simpl.
  - by rewrite Hs, Hf.
  - apply Forall_cons in Hall as [H1 Hall]. simpl in H1.
    destruct (type_is_UndefinedFunction s1); [|by apply IH].
    destruct H1 as [d ->]; [done|]. simpl. by apply IH.
Qed.

(** X6.  Without a plot configuration a failing [get_defaults] is not
    caught: when a model instantiates and the first of its members of type
    [UndefinedFunction] whose defaults cannot be fetched raises [e],
    [get_gui] ends with that very exception, having printed only the model
    names up to there; nothing after that model is processed. *)
Theorem get_defaults_failure_propagates pre model_name model_conf post o st
    model its1 s f its2 e :
  get_gui_loop init_state pre = (o, Ok st) →
  instantiate model_conf = Ok model →
  plot model_conf = None →
  items model = its1 ++ (s, f) :: its2 →
  Forall (λ sf, type_is_UndefinedFunction sf.1 = true →
                ∃ d, get_defaults sf.2 = Ok d) its1 →
  type_is_UndefinedFunction s = true →
  get_defaults f = Raise e →
  get_gui (pre ++ (model_name, model_conf) :: post)
  = (o ++ [Print_str model_name], Raise e).
Proof.
  intros Hloop Hm Hplot Hitems Hall Hs Hf. unfold get_gui.
  rewrite get_gui_loop_app, Hloop, bind_Ok, get_gui_loop_cons.
  rewrite (get_gui_body_instantiated _ _ _ model) by done.
  assert (build_tab st model_name model_conf model = ([], Raise e)) as ->.
  { unfold build_tab, len. rewrite Hitems, length_app. simpl.
    replace (length its1 + S (length its2) =? 0) with false
      by (symmetry; apply Nat.eqb_neq; lia).
    unfold resolve_params, lift. rewrite Hplot, Hitems.
    by rewrite (defaults_loop_raise _ _ _ _ e). }
  done.
Qed.

Lemma get_defaults_failure_propagates_witness :
  get_gui ([("A", conf_fg)]
           ++ ("N", {| instantiate := Ok model_no_defaults; plot := None |})
           :: [("B", conf_double)])
  = ([Print_str "A"] ++ [Print_str "N"], Raise (Error "no defaults")).
Proof.
  eapply (get_defaults_failure_propagates [("A", conf_fg)] "N" _ [("B", conf_double)]
            _ _ model_no_defaults [(applied "f", without_defaults)]
            (function_class "f") without_defaults []);
    [reflexivity|reflexivity|reflexivity|reflexivity| |reflexivity|reflexivity].
  repeat constructor. simpl. done.
Defined.

Lemma plot_loop_ok model entries : ∀ ds acc,
  Forall2 (λ entry d, entry_resolution model entry = Ok d) entries ds →
  NoDup (dict_keys acc ++ entries.*1) →
  plot_loop model entries acc = ([], Ok (acc ++ zip entries.*1 ds)).
Proof.
  induction entries as [|[k a] entries IH]; intros ds acc Hds Hnd.
  - apply Forall2_nil_inv_l in Hds as ->. simpl. by rewrite app_nil_r.
  - apply Forall2_cons_inv_l in Hds as (d & ds' & Hd & Hds & ->).
    csimpl in *.
    apply NoDup_app in Hnd as Hnd'. destruct Hnd' as (Hnd1 & Hdisj & Hnd2).
    assert (k ∉ dict_keys acc) as Hfresh
      by (intros Hin; apply (Hdisj _ Hin); left).
    assert (NoDup (dict_keys (acc ++ [(k, d)]) ++ entries.*1)) as Hnd3.
    { unfold dict_keys. rewrite fmap_app. csimpl. by rewrite <- app_assoc. }
    unfold entry_resolution in Hd. simpl in Hd. destruct a as [a|].
    + rewrite Hd. simpl. rewrite dict_set_fresh by done.
      rewrite (IH ds') by done. simpl. by rewrite <- app_assoc.
    + rewrite Hd. rewrite dict_set_fresh by done.
      rewrite (IH ds') by done. by rewrite <- app_assoc.
Qed.

(** X7.  With a plot configuration whose names are pairwise different and
    whose entries all resolve (a null entry to the declared defaults of
    the variable, an explicit entry to what [eval_config] makes of it),
    resolution prints nothing and yields exactly the configured names, in
    configuration order, each with its resolution; members of the model
    that the configuration does not name get no entry. *)
Theorem resolve_params_plot_order model model_conf entries ds :
  plot model_conf = Some entries →
  NoDup entries.*1 →
  Forall2 (λ entry d, entry_resolution model entry = Ok d) entries ds →
  resolve_params model model_conf = ([], Ok (zip entries.*1 ds))
  ∧ dict_keys (zip entries.*1 ds) = entries.*1.
Proof.
  intros Hplot Hnd Hds. unfold resolve_params. rewrite Hplot. split.
  - by rewrite (plot_loop_ok _ _ ds []).
  - unfold dict_keys. apply fst_zip. rewrite length_fmap.
    by rewrite (Forall2_length _ _ _ Hds).
Qed.

Lemma resolve_params_plot_order_witness :
  resolve_params model_fg
    {| instantiate := Ok model_fg;
       plot := Some [("g", None); ("f", Some {| eval_config := Ok [("x", [0; 5]%Q)] |})] |}
  = ([], Ok (zip ["g"; "f"] [[("x", [0; 1; 2]%Q)]; [("x", [0; 5]%Q)]])).
Proof.
  refine (proj1 (resolve_params_plot_order model_fg _
                   [("g", None); ("f", Some {| eval_config := Ok [("x", [0; 5]%Q)] |})]
                   [_; _] _ _ _)).
  - reflexivity.
  - by apply (bool_decide_unpack _).
  - repeat constructor.
Defined.

(** ** The app get_gui builds *)

Lemma get_equation_divs_checklist_id model model_name model_params :
  checklist_id (checklist (get_equation_divs model model_name model_params))
  = "checklist-" +:+ model_name.
Proof.
  unfold get_equation_divs. by destruct (equation_loop _ _ _ _ _ _ _) as [[? ?] ?].
Qed.

(** Every tab carries the ids derived from its label. *)
Lemma get_gui_loop_tab_ids models o st :
  get_gui_loop init_state models = (o, Ok st) →
  ∀ tab, tab ∈ st_tabs_children st →
    graph_id_of (tab_graph tab) = "graph-" +:+ label tab
    ∧ checklist_id (checklist (tab_equation_divs tab)) = "checklist-" +:+ label tab.
Proof.
  apply (get_gui_loop_ind
           (λ st, ∀ tab, tab ∈ st_tabs_children st →
              graph_id_of (tab_graph tab) = "graph-" +:+ label tab
              ∧ checklist_id (checklist (tab_equation_divs tab))
                = "checklist-" +:+ label tab)).
  - by intros tab ?%elem_of_nil.
  - intros st0 [model_name model_conf] o0 st1 _ IH Hb tab Hin.
    apply get_gui_body_Ok in Hb as (model & _ & _ & [(_ & Ht & _)|(_ & Hb)]).
    { rewrite Ht in Hin. by apply IH. }
    destruct Hb as (p & fig & ? & ? & _ & _ & Ht & _).
    rewrite Ht in Hin. apply elem_of_app in Hin as [?|Hin]; [by apply IH|].
    apply list_elem_of_singleton in Hin as ->. simpl. split; [done|].
    apply get_equation_divs_checklist_id.
Qed.

(** Every entry of [graphs] has its tab, built from the same model and
    parameters. *)
Lemma get_gui_loop_graph_tab models o st :
  get_gui_loop init_state models = (o, Ok st) →
  ∀ gid m p n, (gid, (m, p, n)) ∈ st_graphs st →
    ∃ tab, tab ∈ st_tabs_children st
      ∧ label tab = n
      ∧ tab_equation_divs tab = get_equation_divs m n p
      ∧ make_kamodo_subplots m (dict_keys p) p = ([], Ok (graph_figure (tab_graph tab))).
Proof.
  apply (get_gui_loop_ind
           (λ st, ∀ gid m p n, (gid, (m, p, n)) ∈ st_graphs st →
              ∃ tab, tab ∈ st_tabs_children st
                ∧ label tab = n
                ∧ tab_equation_divs tab = get_equation_divs m n p
                ∧ make_kamodo_subplots m (dict_keys p) p
                  = ([], Ok (graph_figure (tab_graph tab))))).
  - by intros gid m p n ?%elem_of_nil.
  - intros st0 [model_name model_conf] o0 st1 _ IH Hb gid m p n Hin.
    apply get_gui_body_Ok in Hb as (model & _ & _ & [(_ & Ht & Hg)|(_ & Hb)]).
    { rewrite Hg in Hin. rewrite Ht. by eapply IH. }
    destruct Hb as (p' & fig & o1 & o2 & _ & Hmk & Ht & Hg).
    rewrite Hg in Hin. rewrite Ht.
    apply elem_dict_set in Hin as [[-> [= -> -> ->]]|Hin].
    + eexists. split; [apply elem_of_app; right; left|]. simpl.
      split_and!; [done|done|].
      by apply make_kamodo_subplots_Ok_inv_aux in Hmk as Hmk'; destruct Hmk' as [-> _].
    + destruct (IH _ _ _ _ Hin) as (tab & Htab & ?).
      exists tab. split; [apply elem_of_app; by left|done].
Qed.

(** X8.  Every callback of the app [get_gui] returns is wired to
    components of the layout: there is a tab whose graph is the callback's
    output and whose checklist is its only input. *)
Theorem callbacks_wired_to_layout models o app cb :
  get_gui models = (o, Ok app) →
  cb ∈ callback_map app →
  ∃ tab, tab ∈ tabs app
    ∧ output cb = tab_graph_output tab
    ∧ inputs cb = [tab_checklist_input tab].
Proof.
  intros (st & Hloop & ->)%get_gui_Ok Hcb.
  destruct (register_callbacks_spec (st_graphs st)
              {| tabs := st_tabs_children st; callback_map := [] |}) as [Ht Hc].
  rewrite Hc in Hcb. simpl in Hcb.
  apply list_elem_of_fmap in Hcb as ([gid [[m p] n]] & -> & Hin).
  destruct (get_gui_loop_graph_tab _ _ _ Hloop _ _ _ _ Hin) as (tab & Htab & Hl & _).
  destruct (get_gui_loop_tab_ids _ _ _ Hloop _ Htab) as [Hg Hk].
  destruct (get_gui_loop_graphs_wf _ _ _ Hloop) as [_ Hwf].
  exists tab. rewrite Ht. split; [done|].
  unfold tab_graph_output, tab_checklist_input. simpl.
  rewrite Hg, Hk, Hl. by rewrite (Hwf _ _ _ _ Hin).
Qed.

Lemma callbacks_wired_to_layout_witness :
  ∃ o app cb tab,
    get_gui [("A", conf_fg)] = (o, Ok app)
    ∧ cb ∈ callback_map app
    ∧ tab ∈ tabs app
    ∧ output cb = tab_graph_output tab.
Proof.
  eexists _, _, (subplot_callback "graph-A" model_fg "A" params_fg), _.
  split; [reflexivity|]. split; [left|].
  destruct (callbacks_wired_to_layout [("A", conf_fg)] _ _
              (subplot_callback "graph-A" model_fg "A" params_fg) eq_refl)
    as (tab & Htab & Hout & _); [left|].
  apply list_elem_of_singleton in Htab as ->. split; [left|exact Hout].
Defined.

(** X9.  Ticking, on the checklist of a registered model, exactly the
    names its parameters were resolved for republishes the figure the tab
    was built with: the initial figure and the callback agree. *)
Theorem select_all_reproduces_initial_figure (store : gmap dependency prop_value)
    models o st gid m p n :
  get_gui_loop init_state models = (o, Ok st) →
  dict_get gid (st_graphs st) = Some (m, p, n) →
  let app := register_callbacks
               {| tabs := st_tabs_children st; callback_map := [] |} (st_graphs st) in
  ∃ tab, tab ∈ tabs app
    ∧ label tab = n
    ∧ tab_graph_output tab = (gid, "figure")
    ∧ on_event app ("checklist-" +:+ n, "value") (Names (dict_keys p)) store
      = ([], <[(gid, "figure") := Fig (graph_figure (tab_graph tab))]>
               (<[("checklist-" +:+ n, "value") := Names (dict_keys p)]> store)).
Proof.
  intros Hloop Hget app.
  pose proof (get_gui_loop_graphs_wf _ _ _ Hloop) as Hwf.
  pose proof (dict_get_Some_elem _ _ _ Hget) as Hin.
  destruct (get_gui_loop_graph_tab _ _ _ Hloop _ _ _ _ Hin)
    as (tab & Htab & Hl & _ & Hmk).
  destruct (get_gui_loop_tab_ids _ _ _ Hloop _ Htab) as [Hg _].
  destruct (register_callbacks_spec (st_graphs st)
              {| tabs := st_tabs_children st; callback_map := [] |}) as [Ht Hc].
  exists tab. split_and!.
  - unfold app. by rewrite Ht.
  - done.
  - unfold tab_graph_output. rewrite Hg, Hl.
    destruct Hwf as [_ Hk]. by rewrite (Hk _ _ _ _ Hin).
  - unfold on_event, app. rewrite Hc. simpl.
    rewrite (foldl_fire_entry _ _ gid m p n (dict_keys p))
      by (done || apply lookup_insert_eq).
    assert (update_subplot m p (dict_keys p)
            = ([], Ok (graph_figure (tab_graph tab)))) as ->; [|done].
    unfold update_subplot.
    apply make_kamodo_subplots_Ok_inv_aux in Hmk as Hmk'.
    destruct Hmk' as (_ & Hne & _).
    destruct (dict_keys p); [done|]. done.
Qed.

Lemma select_all_reproduces_initial_figure_witness :
  ∃ o st tab,
    get_gui_loop init_state [("A", conf_fg)] = (o, Ok st)
    ∧ tab ∈ st_tabs_children st
    ∧ on_event
        (register_callbacks
           {| tabs := st_tabs_children st; callback_map := [] |} (st_graphs st))
        ("checklist-A", "value") (Names ["f"; "g"]) ∅
      = ([], <[("graph-A", "figure") := Fig (graph_figure (tab_graph tab))]>
               (<[("checklist-A", "value") := Names ["f"; "g"]]> ∅)).
Proof.
  eexists _, _, _. split; [reflexivity|].
  destruct (select_all_reproduces_initial_figure ∅ [("A", conf_fg)] _ _
              "graph-A" model_fg params_fg "A" eq_refl eq_refl)
    as (tab & Htab & _ & _ & Hev).
  simpl in Htab. apply list_elem_of_singleton in Htab as ->.
  split; [left|exact Hev].
Defined.

Lemma get_gui_body_effective st model_name model_conf o st' :
  get_gui_body st (model_name, model_conf) = (o, Ok st') →
  ∃ model, effective_model (st_model st) model_conf = Some model
           ∧ st_model st' = Some model
           ∧ build_tab st model_name model_conf model
             = ((build_tab st model_name model_conf model).1, Ok st')
           ∧ o = Print_str model_name ::
                 match instantiate model_conf with
                 | Ok _ => []
                 | Raise e => [Print_str ("could not instantiate " +:+ model_name);
                               Print_exn e]
                 end ++ (build_tab st model_name model_conf model).1.
Proof.
  intros H. unfold effective_model.
  destruct (instantiate model_conf) as [model|e] eqn:E.
  - rewrite (get_gui_body_instantiated _ _ _ model) in H by done.
    injection H as <- H. exists model.
    destruct (build_tab st model_name model_conf model) as [o' r] eqn:Hb.
    simpl in *. subst r. split_and!; [done| |done|done].
    unfold build_tab in Hb. destruct (len model =? 0).
    + by injection Hb as _ <-.
    + apply bind_inv_Ok in Hb as (? & ? & ? & _ & Hb & _).
      apply bind_inv_Ok in Hb as (? & ? & ? & _ & Hb & _).
      by injection Hb as _ <-.
  - destruct (is_Exception e) eqn:Hexc.
    + rewrite (get_gui_body_Raise _ _ _ e) in H by done.
      destruct (st_model st) as [model|]; [|done].
      injection H as <- H. exists model.
      destruct (build_tab st model_name model_conf model) as [o' r] eqn:Hb.
      simpl in *. subst r. split_and!; [done| |done|done].
      unfold build_tab in Hb. destruct (len model =? 0).
      * by injection Hb as _ <-.
      * apply bind_inv_Ok in Hb as (? & ? & ? & _ & Hb & _).
        apply bind_inv_Ok in Hb as (? & ? & ? & _ & Hb & _).
        by injection Hb as _ <-.
    + unfold get_gui_body in H. rewrite E, Hexc in H. done.
Qed.

Lemma plot_loop_silent model entries : ∀ acc o model_params,
  plot_loop model entries acc = (o, Ok model_params) → o = [].
Proof.
  induction entries as [|[k [a|]] entries IH]; intros acc o p; simpl.
  - by intros [= <- _].
  - destruct (eval_config a) as [d|e]; simpl; [|done].
    rewrite let_pair_eta. apply IH.
  - destruct (declared_defaults model k) as [d|e]; [apply IH|].
    by destruct (is_Exception e).
Qed.

(** A tab that gets built is built in silence. *)
Lemma build_tab_silent st model_name model_conf model o st' :
  build_tab st model_name model_conf model = (o, Ok st') → o = [].
Proof.
  unfold build_tab. destruct (len model =? 0); [by intros [= <- _]|].
  intros (o1 & p & o2 & Hres & Hb & ->)%bind_inv_Ok.
  apply bind_inv_Ok in Hb as (o3 & fig & o4 & Hmk & Hb & ->).
  injection Hb as <- _.
  apply make_kamodo_subplots_Ok_inv_aux in Hmk as [-> _].
  unfold resolve_params in Hres. destruct (plot model_conf) as [entries|].
  - by apply plot_loop_silent in Hres as ->.
  - unfold lift in Hres. by injection Hres as <- _.
Qed.

(** X10.  A build that succeeds prints, for each model of the
    configuration in order, its name and, when its instantiation raised,
    the two lines of the failure report; it prints nothing else. *)
Theorem get_gui_log models o app :
  get_gui models = (o, Ok app) → o = instantiation_log models.
Proof.
  intros (st & Hloop & _)%get_gui_Ok. revert Hloop.
  generalize init_state. revert o st.
  induction models as [|[model_name model_conf] models IH]; intros o st st0.
  - by intros [= <- _].
  - rewrite get_gui_loop_cons.
    intros (o1 & st1 & o2 & Hb & Hl & ->)%bind_inv_Ok.
    apply IH in Hl as ->.
    apply get_gui_body_effective in Hb as (model & _ & _ & Hbt & ->).
    apply build_tab_silent in Hbt as ->.
    unfold instantiation_log. simpl. by rewrite app_nil_r.
Qed.

Lemma get_gui_log_witness :
  ∃ app,
    get_gui [("A", conf_fg); ("B", conf_failing); ("E", conf_empty)]
    = (instantiation_log [("A", conf_fg); ("B", conf_failing); ("E", conf_empty)],
       Ok app).
Proof.
  assert (∃ o app, get_gui [("A", conf_fg); ("B", conf_failing); ("E", conf_empty)]
                   = (o, Ok app)) as (o & app & H) by (eexists _, _; reflexivity).
  exists app. rewrite H. f_equal. exact (get_gui_log _ _ _ H).
Defined.

Lemma get_gui_loop_tab_names models : ∀ st o st',
  get_gui_loop st models = (o, Ok st') →
  label <$> st_tabs_children st'
  = (label <$> st_tabs_children st) ++ tab_names models (st_model st).
Proof.
  induction models as [|[model_name model_conf] models IH]; intros st o st'.
  - intros [= _ <-]. simpl. by rewrite app_nil_r.
  - rewrite get_gui_loop_cons.
    intros (o1 & st1 & o2 & Hb & Hl & _)%bind_inv_Ok.
    rewrite (IH _ _ _ Hl). simpl.
    apply get_gui_body_effective in Hb as Hb'.
    destruct Hb' as (model & Heff & Hm & _ & _). rewrite Heff, Hm.
    apply get_gui_body_Ok in Hb as (model' & Hm' & _ & Hcase).
    assert (model' = model) as -> by congruence.
    destruct Hcase as [(Hlen & -> & _)|(Hlen & p & fig & ? & ? & _ & _ & -> & _)].
    + by rewrite Hlen.
    + apply Nat.eqb_neq in Hlen. rewrite Hlen, fmap_app. simpl.
      by rewrite <- app_assoc.
Qed.

Lemma tab_names_sublist models : ∀ model, tab_names models model `sublist_of` models.*1.
Proof.
  induction models as [|[model_name model_conf] models IH]; intros model; csimpl.
  - done.
  - destruct (effective_model model model_conf) as [m|]; simpl.
    + destruct (len m =? 0); simpl; [by apply sublist_cons|by apply sublist_skip].
    + by apply sublist_cons.
Qed.

(** X11.  The tabs of a successful build are labelled, in configuration
    order, by the names of the entries whose iteration worked on a model
    with at least one member ([tab_names]); in particular the labels are
    configured names and keep the order of the configuration. *)
Theorem get_gui_tab_order models o app :
  get_gui models = (o, Ok app) →
  label <$> tabs app = tab_names models None
  ∧ (label <$> tabs app) `sublist_of` models.*1.
Proof.
  intros (st & Hloop & ->)%get_gui_Ok.
  destruct (register_callbacks_spec (st_graphs st)
              {| tabs := st_tabs_children st; callback_map := [] |}) as [-> _].
  simpl. apply get_gui_loop_tab_names in Hloop as ->. simpl.
  split; [done|]. apply tab_names_sublist.
Qed.

Lemma get_gui_tab_order_witness :
  ∃ o app,
    get_gui [("A", conf_fg); ("E", conf_empty); ("B", conf_double)] = (o, Ok app)
    ∧ label <$> tabs app = ["A"; "B"].
Proof.
  eexists _, _. split; [reflexivity|].
  apply (proj1 (get_gui_tab_order
                  [("A", conf_fg); ("E", conf_empty); ("B", conf_double)] _ _ eq_refl)).
Defined.

(** With pairwise different names, [graphs] and the tabs grow together. *)
Lemma get_gui_loop_aligned models : ∀ st o st',
  NoDup ((label <$> st_tabs_children st) ++ models.*1) →
  Forall2 (λ entry tab, entry.1 = "graph-" +:+ label tab ∧ entry.2.2 = label tab)
    (st_graphs st) (st_tabs_children st) →
  get_gui_loop st models = (o, Ok st') →
  Forall2 (λ entry tab, entry.1 = "graph-" +:+ label tab ∧ entry.2.2 = label tab)
    (st_graphs st') (st_tabs_children st').
Proof.
  induction models as [|[model_name model_conf] models IH]; intros st o st' Hnd Hal.
  - by intros [= _ <-].
  - rewrite get_gui_loop_cons.
    intros (o1 & st1 & o2 & Hb & Hl & _)%bind_inv_Ok.
    csimpl in Hnd.
    apply get_gui_body_Ok in Hb as (model & _ & _ & Hcase).
    destruct Hcase as [(_ & Ht & Hg)|(_ & p & fig & ? & ? & _ & _ & Ht & Hg)].
    + apply (IH st1 o2); [|by rewrite Hg, Ht|done].
      rewrite Ht. apply NoDup_app in Hnd as (H1 & H2 & H3).
      apply NoDup_cons in H3 as [_ H3].
      apply NoDup_app. split_and!; [done| |done].
      intros x Hx Hin. apply (H2 x Hx). by right.
    + apply (IH st1 o2); [| |done].
      * rewrite Ht, fmap_app. simpl. by rewrite <- app_assoc.
      * rewrite Hg, Ht. rewrite dict_set_fresh.
        { apply Forall2_app; [done|]. by repeat constructor. }
        unfold dict_keys. intros Hin.
        apply list_elem_of_fmap in Hin as (entry & Hk & Hin).
        apply (list_elem_of_lookup_1 _ _) in Hin as [i Hi].
        destruct (Forall2_lookup_l _ _ _ _ _ Hal Hi) as (tab & Htab & Hk' & _).
        rewrite Hk' in Hk. simplify_eq.
        apply NoDup_app in Hnd as (_ & H2 & _).
        apply (H2 (label tab)); [|left].
        apply list_elem_of_fmap. exists tab. split; [done|].
        by eapply list_elem_of_lookup_2.
Qed.

(** X12.  When the names of the configuration are pairwise different, a
    successful build registers exactly one callback per tab, in tab order:
    the i-th callback writes the figure of the i-th tab's graph and
    listens to the value of the i-th tab's checklist, and to nothing
    else. *)
Theorem one_callback_per_tab models o app :
  NoDup models.*1 →
  get_gui models = (o, Ok app) →
  Forall2 (λ cb tab, output cb = tab_graph_output tab
                     ∧ inputs cb = [tab_checklist_input tab])
    (callback_map app) (tabs app)
  ∧ length (callback_map app) = length (tabs app).
Proof.
  intros Hnd (st & Hloop & ->)%get_gui_Ok.
  destruct (register_callbacks_spec (st_graphs st)
              {| tabs := st_tabs_children st; callback_map := [] |}) as [-> ->].
  simpl.
  assert (Forall2 (λ cb tab, output cb = tab_graph_output tab
                             ∧ inputs cb = [tab_checklist_input tab])
            (entry_callback <$> st_graphs st) (st_tabs_children st)) as H.
  { apply Forall2_fmap_l.
    pose proof (get_gui_loop_tab_ids _ _ _ Hloop) as Hids.
    apply (get_gui_loop_aligned models init_state o st) in Hloop;
      [|done|constructor].
    apply Forall2_same_length_lookup. split; [by eapply Forall2_length|].
    intros i [gid [[m p] n]] tab Hi Htab.
    destruct (Forall2_lookup_lr _ _ _ _ _ _ Hloop Hi Htab) as [Hk Hn].
    simpl in Hk, Hn.
    destruct (Hids tab) as [Hg Hc]; [by eapply list_elem_of_lookup_2|].
    unfold tab_graph_output, tab_checklist_input. simpl.
    by rewrite Hg, Hc, Hk, Hn. }
  split; [done|]. by eapply Forall2_length.
Qed.

Lemma one_callback_per_tab_witness :
  ∃ o app,
    get_gui [("A", conf_fg); ("E", conf_empty); ("B", conf_double)] = (o, Ok app)
    ∧ length (callback_map app) = length (tabs app).
Proof.
  eexists _, _. split; [reflexivity|].
  refine (proj2 (one_callback_per_tab
                   [("A", conf_fg); ("E", conf_empty); ("B", conf_double)] _ _ _ eq_refl)).
  by apply (bool_decide_unpack _).
Defined.

(** ** The number of samples of a range *)

Lemma linspace_length start stop num : length (linspace start stop num) = num.
Proof.
  unfold linspace, arange.
  destruct (1 <? num)%nat, (0 <? num - 1)%nat;
    try destruct (Qeq_bool _ _);
    rewrite ?length_insert, !length_fmap, length_seq; done.
Qed.

(** ** The range-slider callback *)

Lemma input_dict_fold graph_id (plot_kwargs : kwargs) :
  ∀ acc : dict (dependency * dependency),
  NoDup (dict_keys acc ++ dict_keys plot_kwargs) →
  foldl (λ input_dict '(k, _),
           dict_set k (("rangeslider-" +:+ graph_id +:+ "-" +:+ k, "value"),
                       ("input-" +:+ graph_id +:+ "-" +:+ k, "value")) input_dict)
        acc plot_kwargs
  = acc ++ ((λ k, (k, (("rangeslider-" +:+ graph_id +:+ "-" +:+ k, "value"),
                       ("input-" +:+ graph_id +:+ "-" +:+ k, "value"))))
              <$> dict_keys plot_kwargs).
Proof.
  unfold dict_keys.
  induction plot_kwargs as [|[k v] plot_kwargs IH]; intros acc Hnd; csimpl.
  - by rewrite app_nil_r.
  - csimpl in Hnd.
    apply NoDup_app in Hnd as Hnd'. destruct Hnd' as (_ & Hdisj & _).
    rewrite dict_set_fresh by (intros Hin; apply (Hdisj _ Hin); left).
    rewrite IH; [by rewrite <- app_assoc|].
    rewrite fmap_app. csimpl. by rewrite <- app_assoc.
Qed.

Lemma item_app_0 {A : Type} (pre : list A) x l n :
  length pre = n → item (pre ++ x :: l) n = Ok x.
Proof.
  intros <-. unfold item. rewrite lookup_app_r by lia.
  by rewrite Nat.sub_diag.
Qed.

Lemma item_app_1 {A : Type} (pre : list A) x y l n :
  length pre = n → item (pre ++ x :: y :: l) (n + 1) = Ok y.
Proof.
  intros <-. unfold item. rewrite lookup_app_r by lia.
  by replace (length pre + 1 - length pre)%nat with 1%nat by lia.
Qed.

Lemma plot_args_loop_decode keys : ∀ domains i pre acc,
  length pre = (2 * i)%nat →
  length domains = length keys →
  Forall (λ d, (0 ≤ d.2)%Z) domains →
  NoDup (dict_keys acc ++ keys) →
  plot_args_loop (pre ++ flat_map control_values domains) i keys acc
  = Ok (acc ++ zip keys (materialize <$> domains)).
Proof.
  induction keys as [|k keys IH]; intros domains i pre acc Hpre Hlen Hpos Hnd.
  - destruct domains; [|done]. simpl. by rewrite app_nil_r.
  - destruct domains as [|[[lo hi] n] domains]; [done|].
    apply Forall_cons in Hpos as [Hn Hpos]. simpl in Hn.
    injection Hlen as Hlen. cbn [plot_args_loop flat_map control_values app].
    rewrite (item_app_0 pre _ _ (2 * i)), (item_app_1 pre _ _ _ (2 * i)) by done.
    cbn [mbind result_bind linspace_call].
    replace (n <? 0)%Z with false by (symmetry; apply Z.ltb_ge; lia).
    apply NoDup_app in Hnd as Hnd'. destruct Hnd' as (_ & Hdisj & _).
    cbn [mbind result_bind]. csimpl.
    rewrite dict_set_fresh by (intros Hin; apply (Hdisj _ Hin); left).
    specialize (IH domains (S i) (pre ++ [Range [lo; hi]; Count n])
                  (acc ++ [(k, linspace lo hi (Z.to_nat n))])).
    rewrite <- app_assoc in IH. simpl in IH. rewrite IH.
    + by rewrite <- app_assoc.
    + rewrite length_app. simpl. lia.
    + done.
    + done.
    + unfold dict_keys. rewrite fmap_app. csimpl. by rewrite <- app_assoc.
Qed.



Lemma input_dict_of_keys graph_id keys :
  dict_keys (input_dict_of graph_id keys) = keys.
Proof.
  unfold dict_keys, input_dict_of.
  induction keys as [|k keys IH]; csimpl; [done|]. by rewrite IH.
Qed.

Lemma input_dict_of_inputs graph_id keys :
  flat_map (λ '(_, (a, b)), [a; b]) (input_dict_of graph_id keys)
  = flat_map (range_inputs graph_id) keys.
Proof.
  unfold input_dict_of.
  induction keys as [|k keys IH]; csimpl; [done|]. by rewrite IH.
Qed.

(** The callback [generate_range_slider_callback] registers, for keyword
    arguments with pairwise different names. *)
Lemma generate_range_slider_callback_spec app graph_id varname model
    (plot_kwargs : kwargs) :
  NoDup (dict_keys plot_kwargs) →
  generate_range_slider_callback app graph_id varname model plot_kwargs
  = ([Print_str ("generating calback for " +:+ graph_id +:+ ": " +:+ varname)],
     Ok {| tabs := tabs app;
           callback_map := callback_map app ++
             [{| output := (graph_id, "figure");
                 inputs := flat_map (range_inputs graph_id) (dict_keys plot_kwargs);
                 fn := λ inputs,
                   lift (update_figure model varname
                           (input_dict_of graph_id (dict_keys plot_kwargs)) inputs) |}]
        |}).
Proof.
  intros Hnd. unfold generate_range_slider_callback.
  rewrite (input_dict_fold graph_id plot_kwargs []) by done.
  rewrite app_nil_l.
  change ((λ k, (k, (("rangeslider-" +:+ graph_id +:+ "-" +:+ k, "value"),
                     ("input-" +:+ graph_id +:+ "-" +:+ k, "value"))))
            <$> dict_keys plot_kwargs)
    with (input_dict_of graph_id (dict_keys plot_kwargs)).
  by rewrite input_dict_of_inputs.
Qed.



(** ** generate_callbacks *)

Lemma generate_range_slider_callback_Ok app graph_id varname model plot_kwargs :
  ∃ cb,
    generate_range_slider_callback app graph_id varname model plot_kwargs
    = ([Print_str ("generating calback for " +:+ graph_id +:+ ": " +:+ varname)],
       Ok {| tabs := tabs app; callback_map := callback_map app ++ [cb] |})
    ∧ output cb = (graph_id, "figure").
Proof. eexists. split; reflexivity. Qed.

Lemma generate_callbacks_loop_spec its : ∀ app,
  Forall (λ entry, ¬ clashing_line entry) its →
  ∃ o app',
    generate_callbacks_loop app its = (o, Ok app')
    ∧ tabs app' = tabs app
    ∧ output <$> callback_map app'
      = (output <$> callback_map app)
        ++ ((λ entry, (entry.1, "figure"))
              <$> filter (λ entry, entry.2.1.1.1.1 = "line") its)
    ∧ length o = length its.
Proof.
  induction its as [|[graph_id [[[[chart_type varname] plot_args] model] graph]] its IH];
    intros app Hall.
  - exists [], app. rewrite filter_nil. simpl. by rewrite app_nil_r.
  - apply Forall_cons in Hall as [Hhd Hall].
    cbn [generate_callbacks_loop].
    destruct (String.eqb_spec chart_type "line") as [->|Hne].
    + unfold call_generate_range_slider_callback.
      destruct (clashes plot_args) eqn:Hclash; [by destruct Hhd|].
      destruct (generate_range_slider_callback_Ok app graph_id varname model plot_args)
        as (cb & -> & Hout).
      destruct (IH {| tabs := tabs app; callback_map := callback_map app ++ [cb] |} Hall)
        as (o & app' & Hl & Ht & Hc & Hlen).
      rewrite filter_cons_True by done.
      rewrite bind_Ok, Hl. simpl. eexists _, _. split; [reflexivity|].
      split_and!; [done| |rewrite ?length_app; simpl; lia].
      rewrite Hc. simpl. rewrite fmap_app. simpl. rewrite Hout.
      by rewrite <- app_assoc.
    + destruct (IH app Hall) as (o & app' & Hl & Ht & Hc & Hlen).
      rewrite filter_cons_False by done.
      unfold print, mret, M_ret. rewrite !bind_Ok. simpl. rewrite Hl. simpl.
      eexists _, _. split; [reflexivity|].
      split_and!; [done|done|rewrite ?length_app; simpl; lia].
Qed.

Lemma generate_callbacks_loop_clash its : ∀ app,
  Exists clashing_line its →
  ∃ o, generate_callbacks_loop app its = (o, Raise TypeError).
Proof.
  induction its as [|[graph_id [[[[chart_type varname] plot_args] model] graph]] its IH];
    intros app Hex.
  - by apply Exists_nil in Hex.
  - cbn [generate_callbacks_loop].
    destruct (String.eqb_spec chart_type "line") as [->|Hne].
    + unfold call_generate_range_slider_callback.
      destruct (clashes plot_args) eqn:Hclash; [by eexists|].
      apply Exists_cons in Hex as [[_ Hc]|Hex]; [simpl in Hc; congruence|].
      destruct (generate_range_slider_callback_Ok app graph_id varname model plot_args)
        as (cb & -> & _).
      destruct (IH {| tabs := tabs app; callback_map := callback_map app ++ [cb] |} Hex)
        as [o Ho].
      rewrite bind_Ok, Ho. by eexists.
    + apply Exists_cons in Hex as [[Hl _]|Hex]; [done|].
      destruct (IH app Hex) as [o Ho].
      unfold print, mret, M_ret. rewrite !bind_Ok. simpl. rewrite Ho. by eexists.
Qed.

(** X16.  [generate_callbacks] announces the number of graphs and makes a
    call to [generate_range_slider_callback] for the entries whose chart
    type is ['line'] and for no other.  When no such entry has a keyword
    argument named like one of the positional parameters of that call, it
    does not raise, keeps the layout and adds one callback per line entry,
    in the order of [graphs], each writing the figure of its graph; every
    other entry only gets a message.  When some line entry has such a
    keyword argument, expanding it raises [TypeError] and
    [generate_callbacks] ends with it. *)
Theorem generate_callbacks_line_only app
    (graphs : list (string * (string * string * kwargs * Model * Graph))) :
  (Forall (λ entry, ¬ clashing_line entry) graphs →
   ∃ o app',
     generate_callbacks app graphs
     = (Print_str ("generating callbacks for " +:+ pretty (length graphs) +:+ " graphs")
          :: o, Ok app')
     ∧ tabs app' = tabs app
     ∧ output <$> callback_map app'
       = (output <$> callback_map app)
         ++ ((λ entry, (entry.1, "figure"))
               <$> filter (λ entry, entry.2.1.1.1.1 = "line") graphs)
     ∧ length o = length graphs)
  ∧ (Exists clashing_line graphs →
     ∃ o, generate_callbacks app graphs = (o, Raise TypeError)).
Proof.
  split.
  - intros Hall.
    destruct (generate_callbacks_loop_spec graphs app Hall) as (o & app' & Hl & H).
    exists o, app'. split; [|done].
    unfold generate_callbacks, print. rewrite bind_Ok, Hl. done.
  - intros Hex.
    destruct (generate_callbacks_loop_clash graphs app Hex) as [o Ho].
    unfold generate_callbacks, print. rewrite bind_Ok, Ho. by eexists.
Qed.

Lemma generate_callbacks_line_only_witness :
  (∃ o app',
     generate_callbacks {| tabs := []; callback_map := [] |}
       [("graph-A", ("line", "f", [("x", [0; 1; 2]%Q)], model_fg,
                     {| graph_id_of := "graph-A";
                        graph_figure := {| grid := None; fig_data := [] |} |}));
        ("graph-B", ("surface", "g", [("model", [0]%Q)], model_fg,
                     {| graph_id_of := "graph-B";
                        graph_figure := {| grid := None; fig_data := [] |} |}))]
     = (Print_str "generating callbacks for 2 graphs" :: o, Ok app')
     ∧ output <$> callback_map app' = [("graph-A", "figure")])
  ∧ ∃ o,
      generate_callbacks {| tabs := []; callback_map := [] |}
        [("graph-A", ("line", "f", [("model", [0]%Q)], model_fg,
                      {| graph_id_of := "graph-A";
                         graph_figure := {| grid := None; fig_data := [] |} |}))]
      = (o, Raise TypeError).
Proof.
  split.
  - destruct (proj1 (generate_callbacks_line_only
                       {| tabs := []; callback_map := [] |}
                       [("graph-A", ("line", "f", [("x", [0; 1; 2]%Q)], model_fg,
                                     {| graph_id_of := "graph-A";
                                        graph_figure :=
                                          {| grid := None; fig_data := [] |} |}));
                        ("graph-B", ("surface", "g", [("model", [0]%Q)], model_fg,
                                     {| graph_id_of := "graph-B";
                                        graph_figure :=
                                          {| grid := None; fig_data := [] |} |}))]))
      as (o & app' & H1 & _ & H2 & _).
    + repeat constructor; by intros [? ?].
    + by exists o, app'.
  - apply (proj2 (generate_callbacks_line_only
                    {| tabs := []; callback_map := [] |}
                    [("graph-A", ("line", "f", [("model", [0]%Q)], model_fg,
                                  {| graph_id_of := "graph-A";
                                     graph_figure :=
                                       {| grid := None; fig_data := [] |} |}))])).
    left. by split.
Defined.

(** ** get_range_slider *)

Lemma every_bounds {A : Type} k (v : list A) : ∀ c,
  0 < k →
  length v ≤ length (every k c v) * k + c
  ∧ (length (every k c v) ≠ 0 → (length (every k c v) - 1) * k + c < length v).
Proof.
  induction v as [|x v IH]; intros c Hk; simpl.
  - split; [lia|done].
  - destruct c as [|c]; simpl.
    + destruct (IH (k - 1) Hk) as [H1 H2]. split; [nia|]. intros _.
      destruct (length (every k (k - 1) v)) as [|n] eqn:E; [simpl; lia|].
      specialize (H2 ltac:(done)). simpl in *. nia.
    + destruct (IH c Hk) as [H1 H2]. split; [lia|]. intros Hne.
      specialize (H2 Hne). lia.
Qed.

(** For 31 samples or more, [v[::int(len(v)/31)]] picks between 31 and 61
    of them. *)
Lemma slice_step_31 {A : Type} (v : list A) :
  31 ≤ length v →
  ∃ l, slice_step (length v / 31) v = Ok l ∧ 31 ≤ length l ≤ 61.
Proof.
  intros Hlen. unfold slice_step.
  assert (1 ≤ length v / 31) as Hq by (apply Nat.div_le_lower_bound; lia).
  replace (length v / 31 =? 0) with false by (symmetry; apply Nat.eqb_neq; lia).
  eexists. split; [done|].
  destruct (every_bounds (length v / 31) v 0 ltac:(lia)) as [H1 H2].
  pose proof (Nat.div_mod_eq (length v) 31) as Hdm.
  pose proof (Nat.mod_upper_bound (length v) 31 ltac:(lia)) as Hr.
  set (q := length v / 31) in *. set (n := length (every q 0 v)) in *.
  split; [nia|].
  destruct n as [|n]; [lia|]. specialize (H2 ltac:(done)). simpl in H2. nia.
Qed.

Lemma number_dict_set_length k s d :
  length (number_dict_set k s d) ≤ S (length d).
Proof.
  induction d as [|[k' s'] d IH]; simpl; [done|].
  destruct (Qeq_bool k k'); simpl; lia.
Qed.

Lemma marks_of_length fmt l : length (marks_of fmt l) ≤ length l.
Proof.
  unfold marks_of.
  assert (∀ acc, length (foldl (λ d i, number_dict_set i (fmt i) d) acc l)
                 ≤ length acc + length l) as H; [|apply (H [])].
  induction l as [|x l IH]; intros acc; simpl; [lia|].
  etrans; [apply IH|]. pose proof (number_dict_set_length x (fmt x) acc). lia.
Qed.

Lemma slider_marks_short r v :
  length v < 31 → ∃ o, slider_marks r v = (o, Raise ValueError).
Proof.
  intros Hlen. unfold slider_marks, slice_step.
  replace (length v / 31) with 0 by (symmetry; by apply Nat.div_small).
  destruct v as [|x v]; simpl; by eexists.
Qed.

Lemma slider_marks_long r v :
  31 ≤ length v →
  ∃ x l, head v = Some x
    ∧ slice_step (length v / 31) v = Ok l
    ∧ slider_marks r v
      = ([Print_str ("type is: " +:+ type_name r x)], Ok (marks_of (format_2f r) l)).
Proof.
  intros Hlen. destruct (slice_step_31 v Hlen) as (l & Hl & _).
  destruct v as [|x v]; [simpl in Hlen; lia|].
  exists x, l. split_and!; [done|done|].
  unfold slider_marks. by rewrite Hl.
Qed.

Lemma slider_row_of_short r graph_id k v :
  length v < 31 → ∃ o, slider_row_of r graph_id k v = (o, Raise ValueError).
Proof.
  intros Hlen. destruct (slider_marks_short r v Hlen) as [o Ho].
  exists o. unfold slider_row_of. by rewrite Ho.
Qed.

Local Open Scope Q_scope.

Lemma min_from_spec v : ∀ m,
  min_from m v <= m ∧ (∀ x, x ∈ v → min_from m v <= x) ∧ min_from m v ∈ m :: v.
Proof.
  induction v as [|y v IH]; intros m; simpl.
  - split_and!; [apply Qle_refl|by intros x ?%elem_of_nil|left].
  - destruct (Qle_bool m y) eqn:E.
    + apply Qle_bool_iff in E. destruct (IH m) as (H1 & H2 & H3).
      split_and!; [done| |].
      * intros x [->|Hx]%elem_of_cons; [eapply Qle_trans; eassumption|by apply H2].
      * apply elem_of_cons in H3 as [->|H3]; [left|right; by right].
    + assert (y <= m) as Hym.
      { destruct (Qlt_le_dec y m) as [?|Hle]; [by apply Qlt_le_weak|].
        apply Qle_bool_iff in Hle. congruence. }
      destruct (IH y) as (H1 & H2 & H3).
      split_and!; [eapply Qle_trans; eassumption| |by right].
      intros x [->|Hx]%elem_of_cons; [done|by apply H2].
Qed.

Lemma max_from_spec v : ∀ m,
  m <= max_from m v ∧ (∀ x, x ∈ v → x <= max_from m v) ∧ max_from m v ∈ m :: v.
Proof.
  induction v as [|y v IH]; intros m; simpl.
  - split_and!; [apply Qle_refl|by intros x ?%elem_of_nil|left].
  - destruct (Qle_bool y m) eqn:E.
    + apply Qle_bool_iff in E. destruct (IH m) as (H1 & H2 & H3).
      split_and!; [done| |].
      * intros x [->|Hx]%elem_of_cons; [eapply Qle_trans; eassumption|by apply H2].
      * apply elem_of_cons in H3 as [->|H3]; [left|right; by right].
    + assert (m <= y) as Hym.
      { destruct (Qlt_le_dec m y) as [?|Hle]; [by apply Qlt_le_weak|].
        apply Qle_bool_iff in Hle. congruence. }
      destruct (IH y) as (H1 & H2 & H3).
      split_and!; [eapply Qle_trans; eassumption| |by right].
      intros x [->|Hx]%elem_of_cons; [done|by apply H2].
Qed.

Local Close Scope Q_scope.

Lemma slider_row_of_long r graph_id k v :
  31 ≤ length v →
  ∃ x row, head v = Some x
    ∧ slider_row_of r graph_id k v
      = ([Print_str ("type is: " +:+ type_name r x)], Ok row)
    ∧ slider_row_ok graph_id (k, v) row.
Proof.
  intros Hlen.
  destruct (slider_marks_long r v Hlen) as (x & l & Hx & Hl & Hmarks).
  destruct (slice_step_31 v Hlen) as (l' & Hl' & Hbound).
  assert (l' = l) as -> by congruence.
  destruct v as [|y v]; [done|]. injection Hx as ->.
  exists x. eexists. split; [done|].
  unfold slider_row_of. rewrite Hmarks.
  cbn [py_min py_max lift].
  replace (length (x :: v) =? 0) with false by done.
  unfold mret, M_ret. rewrite !bind_Ok. simpl.
  split; [reflexivity|].
  destruct (min_from_spec v x) as (Hm1 & Hm2 & Hm3).
  destruct (max_from_spec v x) as (HM1 & HM2 & HM3).
  unfold slider_row_ok. simpl.
  split_and!; [done|done|done|done|lia|done|done|done| |].
  - intros z [->|Hz]%elem_of_cons; [done|]. split; [by apply Hm2|by apply HM2].
  - pose proof (marks_of_length (format_2f r) l). lia.
Qed.

Lemma get_range_slider_loop_long r graph_id its : ∀ divs,
  Forall (λ kv, 31 ≤ length kv.2) its →
  ∃ o rows,
    get_range_slider_loop r graph_id its divs = (o, Ok (divs ++ rows))
    ∧ Forall2 (slider_row_ok graph_id) its rows
    ∧ length o = length its.
Proof.
  induction its as [|[k v] its IH]; intros divs Hall.
  - exists [], []. simpl. by rewrite app_nil_r.
  - apply Forall_cons in Hall as [Hv Hall]. simpl in Hv.
    destruct (slider_row_of_long r graph_id k v Hv) as (x & row & _ & Hrow & Hok).
    destruct (IH (divs ++ [row]) Hall) as (o & rows & Hl & Hrows & Hlen).
    cbn [get_range_slider_loop]. rewrite Hrow, bind_Ok, Hl. simpl.
    exists (Print_str ("type is: " +:+ type_name r x) :: o), (row :: rows).
    rewrite <- app_assoc. split_and!; [done|by constructor|simpl; lia].
Qed.

(** X17.  [get_range_slider] raises [ValueError] as soon as one of the
    parameters has fewer than 31 samples (none included): the step
    [int(len(v)/31)] of the slice that picks the marks is then zero, in
    the [try] and again in the [except]. *)
Theorem get_range_slider_short_samples r graph_id (kw : kwargs) :
  Exists (λ kv, length kv.2 < 31) kw →
  ∃ o, get_range_slider r graph_id kw = (o, Raise ValueError).
Proof.
  unfold get_range_slider. generalize (@nil slider_row).
  induction kw as [|[k v] kw IH]; intros divs Hex.
  - by apply Exists_nil in Hex.
  - cbn [get_range_slider_loop].
    destruct (decide (length v < 31)) as [Hshort|Hlong].
    + destruct (slider_row_of_short r graph_id k v Hshort) as [o ->].
      by exists o.
    + apply Exists_cons in Hex as [Hex|Hex]; [done|].
      destruct (slider_row_of_long r graph_id k v ltac:(lia)) as (x & row & _ & -> & _).
      destruct (IH (divs ++ [row]) Hex) as [o Ho].
      rewrite bind_Ok, Ho. by eexists.
Qed.

Lemma get_range_slider_short_samples_witness :
  ∃ o, get_range_slider
         {| type_name := λ _, "<class 'float'>";
            format_2f := λ _, "0.00"; str_number := λ _, "0" |}
         "graph-A" [("x", [0; 1; 2]%Q)] = (o, Raise ValueError).
Proof.
  apply get_range_slider_short_samples. left. simpl. lia.
Defined.

(** X18.  When every parameter has at least 31 samples,
    [get_range_slider] returns one row per parameter, in order.  The row
    of parameter [k] holds the slider ["rangeslider-<graph_id>-<k>"] and
    the input ["input-<graph_id>-<k>"]; the slider spans from the smallest
    to the largest sample, both of which are samples, and starts with the
    whole span selected; it has at most 61 marks; the input starts at the
    number of samples, with 3 as lower and ten times that number as upper
    bound.  One line is printed per parameter. *)
Theorem get_range_slider_rows r graph_id (kw : kwargs) :
  Forall (λ kv, 31 ≤ length kv.2) kw →
  ∃ o rows,
    get_range_slider r graph_id kw = (o, Ok rows)
    ∧ Forall2 (slider_row_ok graph_id) kw rows
    ∧ length o = length kw.
Proof.
  intros Hall.
  destruct (get_range_slider_loop_long r graph_id kw [] Hall) as (o & rows & H).
  by exists o, rows.
Qed.

Lemma get_range_slider_rows_witness :
  ∃ o rows,
    get_range_slider
      {| type_name := λ _, "<class 'float'>";
         format_2f := λ _, "0.00"; str_number := λ _, "0" |}
      "graph-A" [("x", arange 40)] = (o, Ok rows)
    ∧ Forall2 (slider_row_ok "graph-A") [("x", arange 40)] rows.
Proof.
  destruct (get_range_slider_rows
              {| type_name := λ _, "<class 'float'>";
                 format_2f := λ _, "0.00"; str_number := λ _, "0" |}
              "graph-A" [("x", arange 40)]) as (o & rows & H1 & H2 & _).
  - repeat constructor.
  - by exists o, rows.
Defined.


